(** * LogHunter: the line annotation and query engine

    A shallow embedding of [loghunter.py] (classes [LogLine] and [LogHunter],
    and [parse_time_arg]) together with the properties of its natural-language
    specification.

    Conventions of the embedding.
    - Python [str] is [string]: the text is ASCII, and the character
      classes of [re] ([\d], [\w], [\s], [\b]), case-insensitive matching and
      [str.upper] are the ASCII ones.  A theorem whose truth depends on it
      says so with the hypothesis [all_chars is_ascii].
    - Python [int] is [Z].
    - A [datetime] without [tzinfo] (the only kind [datetime.now()] and the
      timestamp extraction produce) is the number of microseconds elapsed
      since 0001-01-01T00:00:00, a [Z] in the range [dt_valid]; a
      [timedelta] is a number of microseconds.  The range checks of the
      [datetime] module are written out.  A [datetime] as a caller can pass
      it, with or without UTC offset, is an [instant]; comparing a naive
      with an aware one raises [TypeError].  [datetime.now()] and
      [datetime.fromisoformat] are parameters of the functions that call
      them.
    - Exceptions are values of [exn]; a function that can raise returns a
      [result]. *)

From stdpp Require Import base numbers option list strings gmap sorting.
From Stdlib Require Import Ascii ZArith Lia.

Local Open Scope Z_scope.

(** ** Exceptions *)

Inductive exn : Type :=
  | ValueError (msg : string)
  | OverflowError
  | TypeError
  | OtherError.

Inductive result (A : Type) : Type :=
  | Ok (a : A)
  | Raise (e : exn).
Arguments Ok {A} a.
Arguments Raise {A} e.

#[global] Instance result_ret : MRet result := fun A a => Ok a.
#[global] Instance result_bind : MBind result := fun A B k m =>
  match m with
  | Ok a => k a
  | Raise e => Raise e
  end.

(** A [for] loop over [l] that updates a state and stops at the first
    exception. *)
Fixpoint for_each {A B} (body : B → A → result B) (b : B) (l : list A) : result B :=
  match l with
  | [] => Ok b
  | x :: l => b' ← body b x; for_each body b' l
  end.

(** [try: m except: h] is Python's [try ... except: ...] with a bare
    [except] clause, which catches every exception. *)
Definition try_except {A} (m : result A) (h : result A) : result A :=
  match m with
  | Ok a => Ok a
  | Raise _ => h
  end.

(** ** Characters and strings *)

Definition ascii_in (lo hi c : ascii) : bool :=
  (Ascii.N_of_ascii lo <=? Ascii.N_of_ascii c)%N && (Ascii.N_of_ascii c <=? Ascii.N_of_ascii hi)%N.

Definition is_digit (c : ascii) : bool := ascii_in "0" "9" c.
Definition is_lower (c : ascii) : bool := ascii_in "a" "z" c.
Definition is_upper (c : ascii) : bool := ascii_in "A" "Z" c.
(** [\w] *)
Definition is_word (c : ascii) : bool :=
  is_digit c || is_lower c || is_upper c || Ascii.eqb c "_".
(** [\s]: space, [\t], [\n], [\v], [\f], [\r] and the separators
    [\x1c] to [\x1f] *)
Definition is_space (c : ascii) : bool :=
  Ascii.eqb c " " || ascii_in "009" "013" c || ascii_in "028" "031" c.

Definition upper_char (c : ascii) : ascii :=
  if is_lower c then Ascii.ascii_of_N (Ascii.N_of_ascii c - 32) else c.
Definition lower_char (c : ascii) : ascii :=
  if is_upper c then Ascii.ascii_of_N (Ascii.N_of_ascii c + 32) else c.

Fixpoint map_string (f : ascii → ascii) (s : string) : string :=
  match s with
  | EmptyString => EmptyString
  | String c s => String (f c) (map_string f s)
  end.

(** [s.upper()] *)
Definition upper (s : string) : string := map_string upper_char s.

(** [s.replace(a, b)] for one-character [a] and [b]. *)
Definition replace_char (a b : ascii) (s : string) : string :=
  map_string (λ c, if Ascii.eqb c a then b else c) s.

(** [s.rstrip(chars)]: drop the longest suffix made of [chars]. *)
Fixpoint rstrip (chars : ascii → bool) (s : string) : string :=
  match s with
  | EmptyString => EmptyString
  | String c s =>
      match rstrip chars s with
      | EmptyString => if chars c then EmptyString else String c EmptyString
      | s' => String c s'
      end
  end.

Definition is_newline (c : ascii) : bool := Ascii.eqb c "010" || Ascii.eqb c "013".

(** [int(s)] for a string of decimal digits. *)
Definition digit_value (c : ascii) : Z := Z.of_N (Ascii.N_of_ascii c) - 48.
Fixpoint int_of_digits (acc : Z) (s : string) : Z :=
  match s with
  | EmptyString => acc
  | String c s => int_of_digits (10 * acc + digit_value c) s
  end.

(** ** Regular expressions: the fragment of [re] the program uses

    A backtracking matcher in continuation-passing style: [rmatch] tries the
    alternatives in the order [re] does (the left branch of [|] first,
    greedy repetition longest first) and calls the continuation with the
    previous character, the rest of the subject and the groups captured so
    far.  The bodies of the repetitions in the program's patterns never
    match the empty string. *)

Inductive regex : Type :=
  | Eps
  | Lit (c : ascii)                                 (* a literal character *)
  | Class (p : ascii → bool)                        (* [\d], [\w], [[T ]], ... *)
  | Cat (r1 r2 : regex)
  | Alt (r1 r2 : regex)                             (* [r1|r2] *)
  | Repeat (lo : nat) (hi : option nat) (r : regex) (* [r{lo,hi}], [r+], [r?] *)
  | Group (i : nat) (r : regex)                     (* capturing group number [i] *)
  | WordB                                           (* [\b] *)
  | Bol                                             (* [^] *)
  | Eol.                                            (* [$] *)

Definition captures := list (nat * string).

(** The text consumed between the subject [s] and its suffix [s']. *)
Definition consumed (s s' : string) : string :=
  String.substring 0 (String.length s - String.length s') s.

Definition string_head (s : string) : option ascii :=
  match s with
  | EmptyString => None
  | String c _ => Some c
  end.

Definition is_word_at (c : option ascii) : bool := from_option is_word false c.

(** [$] matches at the end of the subject and before a final newline. *)
Definition at_end (s : string) : bool :=
  match s with
  | EmptyString => true
  | String c EmptyString => Ascii.eqb c "010"
  | _ => false
  end.

Definition lit_matches (ignorecase : bool) (c x : ascii) : bool :=
  if ignorecase then Ascii.eqb (lower_char x) (lower_char c) else Ascii.eqb x c.

Section rmatch.
Context {R : Type} (ignorecase : bool).

Definition cont : Type := option ascii → string → captures → option R.

Fixpoint rmatch (r : regex) (prev : option ascii) (s : string) (g : captures)
    (k : cont) {struct r} : option R :=
  match r with
  | Eps => k prev s g
  | Lit c =>
      match s with
      | String x s' => if lit_matches ignorecase c x then k (Some x) s' g else None
      | EmptyString => None
      end
  | Class p =>
      match s with
      | String x s' => if p x then k (Some x) s' g else None
      | EmptyString => None
      end
  | Cat r1 r2 => rmatch r1 prev s g (λ prev' s' g', rmatch r2 prev' s' g' k)
  | Alt r1 r2 =>
      match rmatch r1 prev s g k with
      | Some x => Some x
      | None => rmatch r2 prev s g k
      end
  | Repeat lo hi r' =>
      (fix rep (n lo : nat) (prev : option ascii) (s : string) (g : captures)
           {struct n} : option R :=
         match n with
         | O => if lo is O then k prev s g else None
         | S n' =>
             match rmatch r' prev s g (λ prev' s' g', rep n' (pred lo) prev' s' g') with
             | Some x => Some x
             | None => if lo is O then k prev s g else None
             end
         end) (from_option id (String.length s) hi) lo prev s g
  | Group i r' =>
      rmatch r' prev s g (λ prev' s' g', k prev' s' ((i, consumed s s') :: g'))
  | WordB =>
      if xorb (is_word_at prev) (is_word_at (string_head s)) then k prev s g else None
  | Bol => if prev is None then k prev s g else None
  | Eol => if at_end s then k prev s g else None
  end.
End rmatch.

(** A compiled pattern ([re.compile(pattern, flags)]) and a match object. *)
Record pattern : Type := mkPattern { pat_re : regex; pat_ignorecase : bool }.

Record match_obj : Type := mkMatch {
  m_start : nat;          (* [m.start()] *)
  m_group0 : string;      (* [m.group()] *)
  m_groups : captures;
}.

Fixpoint captured (i : nat) (g : captures) : option string :=
  match g with
  | [] => None
  | (j, t) :: g => if decide (i = j) then Some t else captured i g
  end.

(** [m.group(i)] for a group that took part in the match. *)
Definition m_group (m : match_obj) (i : nat) : string :=
  default "" (captured i (m_groups m)).

Definition match_here (p : pattern) (prev : option ascii) (s : string)
    : option (string * captures) :=
  rmatch (pat_ignorecase p) (pat_re p) prev s [] (λ _ s' g, Some (s', g)).

(** [re.match(p, s)] *)
Definition re_match (p : pattern) (s : string) : option match_obj :=
  match match_here p None s with
  | Some (s', g) => Some (mkMatch 0 (consumed s s') g)
  | None => None
  end.

(** [p.search(s)]: the match at the leftmost position that has one. *)
Fixpoint search_from (p : pattern) (prev : option ascii) (s : string) (i : nat)
    : option match_obj :=
  match match_here p prev s with
  | Some (s', g) => Some (mkMatch i (consumed s s') g)
  | None =>
      match s with
      | EmptyString => None
      | String c s' => search_from p (Some c) s' (S i)
      end
  end.

Definition re_search (p : pattern) (s : string) : option match_obj :=
  search_from p None s 0.

(** [p.sub(repl, s)] for a pattern that does not match the empty string:
    scan from the left; where the pattern matches, emit [repl] and resume
    after the match ([skip] counts the matched characters still to pass);
    elsewhere copy the character.  (What [re.sub] does with an empty match is
    not modelled: it is treated as no match.) *)
Fixpoint sub_from (p : pattern) (repl : string) (prev : option ascii)
    (s : string) (skip : nat) : string :=
  match s with
  | EmptyString => EmptyString
  | String c s' =>
      match skip with
      | S skip' => sub_from p repl (Some c) s' skip'
      | O =>
          match match_here p prev s with
          | Some (rest, _) =>
              match (String.length s - String.length rest)%nat with
              | S n => repl +:+ sub_from p repl (Some c) s' n
              | O => String c (sub_from p repl (Some c) s' 0)
              end
          | None => String c (sub_from p repl (Some c) s' 0)
          end
      end
  end.

Definition re_sub (p : pattern) (repl : string) (s : string) : string :=
  sub_from p repl None s 0.

(** Pattern syntax: a literal string, an exact count [r{n}], [r+]. *)
Fixpoint lit (s : string) : regex :=
  match s with
  | EmptyString => Eps
  | String c EmptyString => Lit c
  | String c s => Cat (Lit c) (lit s)
  end.

Definition times (n : nat) (r : regex) : regex := Repeat n (Some n) r.
Definition plus (r : regex) : regex := Repeat 1 None r.
Definition opt (r : regex) : regex := Repeat 0 (Some 1%nat) r.

Fixpoint cat (rs : list regex) : regex :=
  match rs with
  | [] => Eps
  | [r] => r
  | r :: rs => Cat r (cat rs)
  end.

Fixpoint alt (rs : list regex) : regex :=
  match rs with
  | [] => Eps
  | [r] => r
  | r :: rs => Alt r (alt rs)
  end.

Notation "'\d'" := (Class is_digit).
Notation "'\w'" := (Class is_word).
Notation "'\s'" := (Class is_space).

(** ** The pattern registry *)

Definition LOG_LEVELS : list string :=
  ["TRACE"; "DEBUG"; "INFO"; "WARN"; "WARNING"; "ERROR"; "FATAL"; "CRITICAL"].

Module PATTERNS.

(** [\d{4}-\d{2}-\d{2}[T ]\d{2}:\d{2}:\d{2}] *)
Definition timestamp_iso : pattern :=
  mkPattern
    (cat [times 4 \d; Lit "-"; times 2 \d; Lit "-"; times 2 \d;
          Class (λ c, Ascii.eqb c "T" || Ascii.eqb c " ");
          times 2 \d; Lit ":"; times 2 \d; Lit ":"; times 2 \d])
    false.

(** [\d{2}/\w{3}/\d{4}:\d{2}:\d{2}:\d{2}] *)
Definition timestamp_common : pattern :=
  mkPattern
    (cat [times 2 \d; Lit "/"; times 3 \w; Lit "/"; times 4 \d; Lit ":";
          times 2 \d; Lit ":"; times 2 \d; Lit ":"; times 2 \d])
    false.

(** [\d{2}:\d{2}:\d{2}] *)
Definition timestamp_simple : pattern :=
  mkPattern (cat [times 2 \d; Lit ":"; times 2 \d; Lit ":"; times 2 \d]) false.

(** [\b(TRACE|DEBUG|...|CRITICAL)\b], [re.IGNORECASE] *)
Definition log_level : pattern :=
  mkPattern (cat [WordB; Group 1 (alt (lit <$> LOG_LEVELS)); WordB]) true.

(** [\b(?:\d{1,3}\.){3}\d{1,3}\b] *)
Definition ip_address : pattern :=
  mkPattern
    (cat [WordB; times 3 (Cat (Repeat 1 (Some 3%nat) \d) (Lit "."));
          Repeat 1 (Some 3%nat) \d; WordB])
    false.

(** [https?://[^\s]+] *)
Definition url : pattern :=
  mkPattern
    (cat [lit "http"; opt (Lit "s"); lit "://"; plus (Class (λ c, negb (is_space c)))])
    false.

(** [\b(Exception|Error|Traceback)\b] *)
Definition exception : pattern :=
  mkPattern
    (cat [WordB; Group 1 (alt [lit "Exception"; lit "Error"; lit "Traceback"]); WordB])
    false.

(** [^\s+at\s+|^\s+File\s+Q] where [Q] is the double-quote character *)
Definition stack_trace : pattern :=
  mkPattern
    (Alt (cat [Bol; plus \s; lit "at"; plus \s])
         (cat [Bol; plus \s; lit "File"; plus \s; Lit "034"]))
    false.

End PATTERNS.

(** ** Dates and times *)

Definition datetime := Z.
Definition timedelta := Z.

Definition us_per_second : Z := 1000000.
Definition us_per_day : Z := 86400 * us_per_second.

(** [datetime.min] is 0001-01-01T00:00:00 and [datetime.max] is
    9999-12-31T23:59:59.999999: 3652059 days. *)
Definition dt_range : Z := 3652059 * us_per_day.
Definition dt_valid (t : datetime) : Prop := 0 ≤ t < dt_range.

(** [timedelta(days=.., seconds=.., minutes=.., hours=..)]: the constructor
    refuses a magnitude of more than 999999999 days. *)
Definition timedelta_new (days seconds minutes hours : Z) : result timedelta :=
  let us := (((days * 24 + hours) * 60 + minutes) * 60 + seconds) * us_per_second in
  if (-999999999 <=? us `div` us_per_day) && (us `div` us_per_day <=? 999999999)
  then Ok us else Raise OverflowError.

(** [t - d] for a [datetime] and a [timedelta]: "date value out of range"
    when the result leaves [datetime.min .. datetime.max]. *)
Definition datetime_sub (t : datetime) (d : timedelta) : result datetime :=
  let r := t - d in
  if (0 <=? r) && (r <? dt_range) then Ok r else Raise OverflowError.

(** [t1 - t2] for two [datetime]s. *)
Definition datetime_diff (t1 t2 : datetime) : timedelta := t1 - t2.

(** A [datetime] object in general.  [datetime.now()] and the timestamp
    extraction (which parses a date and a time of day, nothing more) give
    objects without [tzinfo], the naive ones; [datetime.fromisoformat]
    returns an aware one, with a UTC offset, for a string that ends in an
    offset such as [+00:00]. *)
Inductive instant : Type :=
  | Naive (t : datetime)
  | Aware (t : datetime) (utcoffset : timedelta).

(** [ts < b] and [ts > b] for a naive [ts]: "can't compare offset-naive and
    offset-aware datetimes" when [b] is aware. *)
Definition naive_lt (ts : datetime) (b : instant) : result bool :=
  match b with
  | Naive t => Ok (ts <? t)
  | Aware _ _ => Raise TypeError
  end.

Definition naive_gt (ts : datetime) (b : instant) : result bool :=
  match b with
  | Naive t => Ok (t <? ts)
  | Aware _ _ => Raise TypeError
  end.

(** ** Python containers *)

(** The adjustment [PySlice_AdjustIndices] makes of one bound of
    [l[start:stop]] (step 1). *)
Definition adjust_index (len i : Z) : Z :=
  if i <? 0 then Z.max 0 (i + len) else Z.min i len.

Definition py_slice {A} (l : list A) (start stop : option Z) : list A :=
  let len := Z.of_nat (length l) in
  let lo := from_option (adjust_index len) 0 start in
  let hi := from_option (adjust_index len) len stop in
  take (Z.to_nat (hi - lo)) (drop (Z.to_nat lo) l).

(** Python truthiness of a list, of a string. *)
Definition nonempty {A} (l : list A) : bool :=
  match l with [] => false | _ => true end.

Definition str_truthy (s : string) : bool :=
  match s with EmptyString => false | _ => true end.

(** [min(x :: l)] and [max(x :: l)]. *)
Definition py_min (x : Z) (l : list Z) : Z := foldl Z.min x l.
Definition py_max (x : Z) (l : list Z) : Z := foldl Z.max x l.

(** A [collections.Counter]: a dictionary, which keeps its keys in the order
    of their first insertion. *)
Definition Counter : Type := list (string * Z).

(** [c[elem] = c.get(elem, 0) + 1] *)
Fixpoint counter_incr (elem : string) (c : Counter) : Counter :=
  match c with
  | [] => [(elem, 1)]
  | (k, n) :: c => if decide (k = elem) then (k, n + 1) :: c
                   else (k, n) :: counter_incr elem c
  end.

(** [Counter(iterable)] *)
Definition Counter_of (l : list string) : Counter :=
  foldl (λ c elem, counter_incr elem c) [] l.

(** [c[k]], which is 0 for a missing key. *)
Fixpoint counter_get (c : Counter) (k : string) : Z :=
  match c with
  | [] => 0
  | (k', n) :: c => if decide (k' = k) then n else counter_get c k
  end.

(** [sorted(items, key=itemgetter(1), reverse=True)]: a stable sort by
    descending count (items with equal counts keep their order). *)
Fixpoint insert_desc (x : string * Z) (l : list (string * Z)) : list (string * Z) :=
  match l with
  | [] => [x]
  | y :: l => if y.2 <=? x.2 then x :: y :: l else y :: insert_desc x l
  end.

Definition sorted_desc (items : list (string * Z)) : list (string * Z) :=
  foldr insert_desc [] items.

(** [c.most_common(n)] is [heapq.nlargest(n, c.items(), key=itemgetter(1))]:
    the first [n] items of the stable descending sort, none for [n ≤ 0]. *)
Definition most_common (c : Counter) (n : Z) : list (string * Z) :=
  take (Z.to_nat n) (sorted_desc c).

(** ** class [LogLine] *)

Record LogLine : Type := mkLogLine {
  line : string;
  line_num : Z;
  file_path : string;
  timestamp : option datetime;
  level : option string;
}.

#[global] Instance LogLine_eq_dec : EqDecision LogLine.
Proof. solve_decision. Defined.

Section LogLine_init.
(** [datetime.fromisoformat], which raises [ValueError] on a string it does
    not accept. *)
Variable fromisoformat : string → result datetime.

Definition _extract_timestamp (line : string) : result (option datetime) :=
  match re_search PATTERNS.timestamp_iso line with
  | Some m =>
      let ts_str := replace_char " " "T" (m_group0 m) in
      try_except (t ← fromisoformat ts_str; mret (Some t)) (Ok None)
  | None => Ok None
  end.

Definition _extract_level (line : string) : option string :=
  match re_search PATTERNS.log_level line with
  | Some m => Some (upper (m_group0 m))
  | None => None
  end.

(** [LogLine.__init__] *)
Definition LogLine_init (raw : string) (line_num : Z) (file_path : string)
    : result LogLine :=
  let line := rstrip is_newline raw in
  ts ← _extract_timestamp line;
  mret (mkLogLine line line_num file_path ts (_extract_level line)).
End LogLine_init.

Definition matches_pattern (self : LogLine) (p : pattern) : bool :=
  bool_decide (is_Some (re_search p (line self))).

Definition matches_level (self : LogLine) (levels : list string) : bool :=
  match level self with
  | None => false
  | Some lv =>
      if negb (str_truthy lv) then false
      else bool_decide (lv ∈ upper <$> levels)
  end.

(** ** class [LogHunter], as functions of [self.lines] *)

Inductive stat_value : Type :=
  | VInt (n : Z)
  | VCounter (c : Counter)
  | VDatetime (t : datetime)
  | VTimedelta (d : timedelta).

Module LogHunter.

(** [load_file], given what reading the file yields: its lines, or the
    error of [open] or of the read (reported as a warning; the lines
    appended so far stay). *)
Section load_file.
Variable fromisoformat : string → result datetime.

Fixpoint load_lines (lines : list LogLine) (raws : list string) (line_num : Z)
    (file_path : string) : list LogLine :=
  match raws with
  | [] => lines
  | raw :: raws =>
      match LogLine_init fromisoformat raw line_num file_path with
      | Ok r => load_lines (lines ++ [r]) raws (line_num + 1) file_path
      | Raise _ => lines
      end
  end.

Definition load_file (lines : list LogLine) (contents : result (list string))
    (file_path : string) : list LogLine :=
  match contents with
  | Ok raws => load_lines lines raws 1 file_path
  | Raise _ => lines
  end.
End load_file.

Definition filter_by_level (lines : list LogLine) (levels : list string)
    : list LogLine :=
  filter (λ r, matches_level r levels) lines.

(** [filter_by_pattern], given [re.compile] (which raises on an invalid
    pattern); [flags] is [re.IGNORECASE] unless [case_sensitive]. *)
Definition filter_by_pattern (compile : string → bool → result pattern)
    (lines : list LogLine) (pattern : string) (case_sensitive : bool)
    : result (list LogLine) :=
  let ignorecase := negb case_sensitive in
  regex ← compile pattern ignorecase;
  mret (filter (λ r, matches_pattern r regex) lines).

(** The loop body of [filter_by_time_range], on the list [result] built
    so far.  The timestamp of a record is naive; [start] and [end] are what
    the caller passes. *)
Definition time_range_step (start end_ : option instant)
    (result_ : list LogLine) (r : LogLine) : result (list LogLine) :=
  match timestamp r with
  | Some ts =>
      before ← (if start is Some s then naive_lt ts s else Ok false);
      if before : bool then Ok result_
      else
        after ← (if end_ is Some e then naive_gt ts e else Ok false);
        if after : bool then Ok result_ else Ok (result_ ++ [r])
  | None => Ok result_
  end.

Definition filter_by_time_range (lines : list LogLine)
    (start end_ : option instant) : result (list LogLine) :=
  for_each (time_range_step start end_) [] lines.

Definition get_errors (lines : list LogLine) : list LogLine :=
  filter_by_level lines ["ERROR"; "FATAL"; "CRITICAL"].

Definition get_warnings (lines : list LogLine) : list LogLine :=
  filter_by_level lines ["WARN"; "WARNING"].

Definition get_exceptions (lines : list LogLine) : list LogLine :=
  filter (λ r, matches_pattern r PATTERNS.exception) lines.

(** [line.level for line in self.lines if line.level] *)
Definition present_levels (lines : list LogLine) : list string :=
  omap (λ r, match level r with
             | Some lv => if str_truthy lv then Some lv else None
             | None => None
             end) lines.

Definition get_statistics (lines : list LogLine) : gmap string stat_value :=
  let stats : gmap string stat_value :=
    <["exceptions" := VInt (Z.of_nat (length (get_exceptions lines)))]>
    (<["warnings" := VInt (Z.of_nat (length (get_warnings lines)))]>
    (<["errors" := VInt (Z.of_nat (length (get_errors lines)))]>
    (<["levels" := VCounter (Counter_of (present_levels lines))]>
    (<["files" := VInt (Z.of_nat (size (list_to_set (file_path <$> lines) : gset string)))]>
    (<["total_lines" := VInt (Z.of_nat (length lines))]> ∅))))) in
  let timestamps := omap timestamp lines in
  match timestamps with
  | t :: ts =>
      <["time_span" := VTimedelta (datetime_diff (py_max t ts) (py_min t ts))]>
      (<["time_end" := VDatetime (py_max t ts)]>
      (<["time_start" := VDatetime (py_min t ts)]> stats))
  | [] => stats
  end.

(** [r'\b\d+\b'] *)
Definition number : pattern := mkPattern (cat [WordB; plus \d; WordB]) false.

(** The loop body of [get_top_patterns]. *)
Definition normalize (text : string) : string :=
  let text := re_sub PATTERNS.timestamp_iso "[TIMESTAMP]" text in
  let text := re_sub PATTERNS.timestamp_common "[TIMESTAMP]" text in
  let text := re_sub PATTERNS.ip_address "[IP]" text in
  let text := re_sub number "[NUM]" text in
  text.

Definition get_top_patterns (lines : list LogLine) (n : Z) : list (string * Z) :=
  let normalized := foldl (λ normalized r, normalized ++ [normalize (line r)]) [] lines in
  most_common (Counter_of normalized) n.

(** [self.lines[-n:] if self.lines else []] *)
Definition tail (lines : list LogLine) (n : Z) : list LogLine :=
  if nonempty lines then py_slice lines (Some (- n)) None else [].

(** [self.lines[:n] if self.lines else []] *)
Definition head (lines : list LogLine) (n : Z) : list LogLine :=
  if nonempty lines then py_slice lines None (Some n) else [].

(** The identity of a record in [context]: [(line.file_path, line.line_num)]. *)
Definition key (r : LogLine) : string * Z := (file_path r, line_num r).

(** First loop of [context]: the body run for one [idx]. *)
Definition context_extend (lines : list LogLine) (before after : Z)
    (result : list LogLine) (idx : Z) : list LogLine :=
  let start := Z.max 0 (idx - before) in
  let end_ := Z.min (Z.of_nat (length lines)) (idx + after + 1) in
  result ++ py_slice lines (Some start) (Some end_).

(** Second loop of [context]: the body run for one [line], on the state
    [(seen, unique)]. *)
Definition context_unique (st : gset (string * Z) * list LogLine)
    (r : LogLine) : gset (string * Z) * list LogLine :=
  let '(seen, unique) := st in
  if decide (key r ∈ seen) then (seen, unique)
  else ({[key r]} ∪ seen, unique ++ [r]).

Definition context (lines : list LogLine) (line_indices : list Z)
    (before after : Z) : list LogLine :=
  let result := foldl (context_extend lines before after) [] line_indices in
  (foldl context_unique (∅, []) result).2.

(** [load_files], given what the file system yields: the paths
    [glob.glob(pattern, recursive=True)] finds, and for each path what reading
    it gives.  [sorted(files)] is the sort of the paths by the order of
    [str]. *)
Section load_files.
Variable fromisoformat : string → result datetime.
Variable glob : string → list string.
Variable read : string → result (list string).

Definition load_files (lines : list LogLine) (pattern : string) : list LogLine :=
  let files := glob pattern in
  if nonempty files then
    foldl (λ lines file_path, load_file fromisoformat lines (read file_path) file_path)
          lines (merge_sort String.le files)
  else lines.
End load_files.

End LogHunter.

(** ** [parse_time_arg] *)

(** [^(\d+)([smhd])$] *)
Definition relative_time : pattern :=
  mkPattern
    (cat [Bol; Group 1 (plus \d);
          Group 2 (Class (λ c, bool_decide (c ∈ ["s"; "m"; "h"; "d"]%char))); Eol])
    false.

Section parse_time_arg.
(** [datetime.now()] at the time of the call (naive), and
    [datetime.fromisoformat]. *)
Variable now : datetime.
Variable fromisoformat : string → result instant.
(** Whether [int] refuses a string of digits for its length: never before
    Python 3.11, and from then on when it has more digits than the limit
    for integer string conversion (4300 unless configured otherwise). *)
Variable int_refuses : string → bool.

(** [int(s)] for a string of decimal digits (the text of the error is
    abridged). *)
Definition py_int (s : string) : result Z :=
  if int_refuses s
  then Raise (ValueError "Exceeds the limit for integer string conversion")
  else Ok (int_of_digits 0 s).

Definition parse_absolute (time_str : string) : result instant :=
  try_except (fromisoformat time_str)
             (Raise (ValueError ("Invalid time format: " +:+ time_str))).

(** [now - d], a naive [datetime] as [now] is. *)
Definition now_minus (d : timedelta) : result instant :=
  t ← datetime_sub now d; mret (Naive t).

Definition parse_time_arg (time_str : string) : result instant :=
  match re_match relative_time time_str with
  | Some m =>
      value ← py_int (m_group m 1);
      let unit := m_group m 2 in
      if decide (unit = "s") then d ← timedelta_new 0 value 0 0; now_minus d
      else if decide (unit = "m") then d ← timedelta_new 0 0 value 0; now_minus d
      else if decide (unit = "h") then d ← timedelta_new 0 0 0 value; now_minus d
      else if decide (unit = "d") then d ← timedelta_new value 0 0 0; now_minus d
      else parse_absolute time_str
  | None => parse_absolute time_str
  end.
End parse_time_arg.

(** ** The specification's reading of [head] and [tail] *)

(** "[head(n)] followed by [tail(n)], for [n ≥ store size], together cover
    the whole store; for [n < size] they do not overlap." *)
Definition head_tail_cover_disjoint (lines : list LogLine) (n : Z) : Prop :=
  (Z.of_nat (length lines) ≤ n →
     ∀ r, r ∈ lines → r ∈ LogHunter.head lines n ∨ r ∈ LogHunter.tail lines n) ∧
  (n < Z.of_nat (length lines) →
     ∀ r, r ∈ LogHunter.head lines n → r ∉ LogHunter.tail lines n).

(** The last [min(n, size)] records in store order. *)
Definition last_records (lines : list LogLine) (n : Z) : list LogLine :=
  drop (length lines - Z.to_nat (n `min` Z.of_nat (length lines))) lines.

(** The first [min(n, size)] records in store order. *)
Definition first_records (lines : list LogLine) (n : Z) : list LogLine :=
  take (Z.to_nat (n `min` Z.of_nat (length lines))) lines.

(** ** The specification's reading of [context] *)

(** The records at the store positions of [[0, size)] that lie in the
    inclusive window [[lo, hi]], in store order. *)
Definition window (lines : list LogLine) (lo hi : Z) : list LogLine :=
  omap (λ p, lines !! Z.to_nat p)
       (filter (λ p, lo ≤ p ≤ hi) (seqZ 0 (Z.of_nat (length lines)))).

(** De-duplication by a key that keeps, of the elements with one key, the
    first one. *)
Fixpoint keep_first {A K} `{EqDecision K} (f : A → K) (l : list A) : list A :=
  match l with
  | [] => []
  | x :: l => x :: filter (λ y, f y ≠ f x) (keep_first f l)
  end.

Definition context_spec (lines : list LogLine) (indices : list Z)
    (before after : Z) : list LogLine :=
  keep_first LogHunter.key
    (mjoin ((λ idx, window lines (idx - before) (idx + after)) <$> indices)).

(** "For every store and every list of 0-based in-range indices,
    [context(indices, before, after)] returns the concatenation of the
    clamped windows, de-duplicated keeping the first occurrence." *)
Definition context_as_specified (lines : list LogLine) (indices : list Z)
    (before after : Z) : Prop :=
  Forall (λ idx, 0 ≤ idx < Z.of_nat (length lines)) indices →
  LogHunter.context lines indices before after
  = context_spec lines indices before after.

(** ** The specification's reading of the filters *)

(** [S] is, case-insensitively, a superset of [L]. *)
Definition ci_superset (S L : list string) : Prop :=
  ∀ l, l ∈ L → ∃ s, s ∈ S ∧ upper s = upper l.

(** The record has a timestamp, not before [start] and not after [end_],
    for whichever bounds are supplied. *)
Definition in_time_range (start end_ : option datetime) (r : LogLine) : Prop :=
  match timestamp r with
  | Some ts => from_option (λ s, s ≤ ts) True start ∧ from_option (λ e, ts ≤ e) True end_
  | None => False
  end.

#[global] Instance in_time_range_dec start end_ r :
  Decision (in_time_range start end_ r).
Proof.
  unfold in_time_range. destruct (timestamp r), start, end_; simpl; apply _.
Defined.

(** The point of the time line an instant denotes: for an aware one its
    time less its UTC offset, for a naive one its time as it stands. *)
Definition instant_point (i : instant) : Z :=
  match i with
  | Naive t => t
  | Aware t utcoffset => t - utcoffset
  end.

(** The same for bounds that are any instants. *)
Definition in_instant_range (start end_ : option instant) (r : LogLine) : Prop :=
  in_time_range (instant_point <$> start) (instant_point <$> end_) r.

#[global] Instance in_instant_range_dec start end_ r :
  Decision (in_instant_range start end_ r).
Proof. unfold in_instant_range. apply _. Defined.

(** "For every store and every choice of optional start and end instants,
    [filter_by_time_range(start, end)] returns exactly the records, in store
    order, whose timestamp is present and satisfies [start ≤ timestamp] when
    [start] is supplied and [timestamp ≤ end] when [end] is supplied." *)
Definition filter_by_time_range_as_specified (lines : list LogLine)
    (start end_ : option instant) : Prop :=
  LogHunter.filter_by_time_range lines start end_
  = Ok (filter (in_instant_range start end_) lines).

Definition is_aware (b : option instant) : bool :=
  match b with
  | Some (Aware _ _) => true
  | _ => false
  end.

(** The record has a timestamp that the loop compares with an aware bound:
    with [start] when that is aware; with [end_] when that is aware and the
    timestamp is not before a naive [start]. *)
Definition compared_with_aware (start end_ : option instant) (r : LogLine) : bool :=
  match timestamp r with
  | Some ts =>
      match start with
      | Some (Aware _ _) => true
      | Some (Naive s) => if ts <? s then false else is_aware end_
      | None => is_aware end_
      end
  | None => false
  end.

(** ** The specification's reading of the statistics *)

(** The number of occurrences of [k] in [l]. *)
Definition occurrences (k : string) (l : list string) : Z :=
  Z.of_nat (length (filter (λ x, x = k) l)).

(** The number of records whose level is [k]. *)
Definition level_count (lines : list LogLine) (k : string) : Z :=
  Z.of_nat (length (filter (λ r, level r = Some k) lines)).

(** ** The specification's reading of the timestamp extraction *)




Definition is_char (a : ascii) : ascii → bool := λ c, Ascii.eqb c a.

(** [dddd-dd-dd[T ]dd:dd:dd] *)
Definition iso_classes : list (ascii → bool) :=
  [is_digit; is_digit; is_digit; is_digit; is_char "-"; is_digit; is_digit;
   is_char "-"; is_digit; is_digit; (λ c, Ascii.eqb c "T" || Ascii.eqb c " ");
   is_digit; is_digit; is_char ":"; is_digit; is_digit; is_char ":";
   is_digit; is_digit].






(** ** The specification's reading of [parse_time_arg] *)

(** The longest prefix of [s] made of characters of the class [p], and the
    rest of [s]. *)
Fixpoint span (p : ascii → bool) (s : string) : string * string :=
  match s with
  | EmptyString => (EmptyString, EmptyString)
  | String c s' =>
      if p c then let '(ds, rest) := span p s' in (String c ds, rest)
      else (EmptyString, s)
  end.

(** The last character of [ds], or [prev] when [ds] is empty. *)
Fixpoint last_char (prev : option ascii) (ds : string) : option ascii :=
  match ds with
  | EmptyString => prev
  | String c ds => last_char (Some c) ds
  end.

Fixpoint all_chars (p : ascii → bool) (s : string) : bool :=
  match s with
  | EmptyString => true
  | String c s => p c && all_chars p s
  end.

Definition is_unit (c : ascii) : bool :=
  Ascii.eqb c "s" || Ascii.eqb c "m" || Ascii.eqb c "h" || Ascii.eqb c "d".

(** [text] is one or more digits and a unit letter, up to a final newline
    (which [$] tolerates): the digits and the unit. *)
Definition relative_parts (text : string) : option (string * ascii) :=
  let '(ds, rest) := span is_digit text in
  match ds, rest with
  | String _ _, String u nl =>
      if is_unit u && bool_decide (nl = "" ∨ nl = String "010" "")
      then Some (ds, u) else None
  | _, _ => None
  end.

(** The length of one unit, in microseconds. *)
Definition unit_us (u : ascii) : Z :=
  if Ascii.eqb u "s" then us_per_second
  else if Ascii.eqb u "m" then 60 * us_per_second
  else if Ascii.eqb u "h" then 3600 * us_per_second
  else us_per_day.



(** ** The specification's reading of [get_top_patterns] *)



(** The normalized texts of a store, in store order. *)
Definition normalized_texts (lines : list LogLine) : list string :=
  (λ r, LogHunter.normalize (line r)) <$> lines.


(** A kind of token: given the character before a position of a text (if
    there is one) and the text from that position on, the token that
    starts there, if one does, and the text after it. *)
Definition token : Type := option ascii → string → option (string * string).

(** The token made of one character of each of the classes [cls], in
    order. *)
Fixpoint take_shape (cls : list (ascii → bool)) (s : string) : option (string * string) :=
  match cls with
  | [] => Some (EmptyString, s)
  | p :: cls =>
      match s with
      | String c s =>
          if p c then (λ mr, (String c mr.1, mr.2)) <$> take_shape cls s else None
      | EmptyString => None
      end
  end.

Definition shape_token (cls : list (ascii → bool)) : token := λ _ s, take_shape cls s.

(** [dd/www/dddd:dd:dd:dd]: the timestamp of the common log format, day,
    month name (three word characters), year and time of day. *)
Definition common_classes : list (ascii → bool) :=
  [is_digit; is_digit; is_char "/"; is_word; is_word; is_word; is_char "/";
   is_digit; is_digit; is_digit; is_digit; is_char ":"; is_digit; is_digit;
   is_char ":"; is_digit; is_digit; is_char ":"; is_digit; is_digit].

(** A run of one to three digits at the head of [s], with no digit after
    it. *)
Definition octet (s : string) : option (string * string) :=
  let '(ds, rest) := span is_digit s in
  if bool_decide (1 ≤ String.length ds ≤ 3)%nat then Some (ds, rest) else None.

(** The text after a dot at the head of [s]. *)
Definition after_dot (s : string) : option string :=
  match s with
  | String c s => if Ascii.eqb c "." then Some s else None
  | EmptyString => None
  end.

(** A dotted quad: four runs of one to three digits with dots between,
    and no word character just before or just after. *)
Definition dotted_quad : token := λ prev s,
  if is_word_at prev then None
  else
    '(a, r1) ← octet s; s1 ← after_dot r1;
    '(b, r2) ← octet s1; s2 ← after_dot r2;
    '(c, r3) ← octet s2; s3 ← after_dot r3;
    '(d, rest) ← octet s3;
    if is_word_at (string_head rest) then None
    else Some (a +:+ "." +:+ b +:+ "." +:+ c +:+ "." +:+ d, rest).

(** An integer standing alone: a run of digits with no word character just
    before or just after. *)
Definition integer_token : token := λ prev s,
  if is_word_at prev then None
  else
    match span is_digit s with
    | (String d ds, rest) =>
        if is_word_at (string_head rest) then None else Some (String d ds, rest)
    | _ => None
    end.

(** The text with its tokens replaced, scanning from the left: where a
    token starts, [repl] stands for it and the scan goes on after the token;
    any other character is kept.  ([n] bounds the number of steps.) *)
Fixpoint replace_from (n : nat) (tok : token) (repl : string)
    (prev : option ascii) (s : string) : string :=
  match n, s with
  | S n, String c s' =>
      match tok prev s with
      | Some (String x m, rest) =>
          repl +:+ replace_from n tok repl (last_char prev (String x m)) rest
      | _ => String c (replace_from n tok repl (Some c) s')
      end
  | _, _ => s
  end.

Definition replace_tokens (tok : token) (repl : string) (s : string) : string :=
  replace_from (String.length s) tok repl None s.

(** The four substitutions of the specification, each applied to the result
    of the one before: ISO timestamps, common-log-format timestamps,
    dotted-quad addresses, then the remaining integer tokens. *)
Definition normalize_as_specified (text : string) : string :=
  replace_tokens integer_token "[NUM]"
    (replace_tokens dotted_quad "[IP]"
      (replace_tokens (shape_token common_classes) "[TIMESTAMP]"
        (replace_tokens (shape_token iso_classes) "[TIMESTAMP]" text))).

(** ** Sample data used by the examples *)

(** A sample [fromisoformat], for the examples: it accepts
    [YYYY-MM-DDTHH:MM:SS] with a valid time of day in January of the year
    2026 and refuses everything else. *)
Definition two_digits (a b : ascii) : Z := 10 * digit_value a + digit_value b.

Definition sample_fromisoformat (s : string) : result datetime :=
  match s with
  | String "2" (String "0" (String "2" (String "6" (String "-" (String "0"
      (String "1" (String "-" (String d1 (String d2 (String "T" (String h1
      (String h2 (String ":" (String m1 (String m2 (String ":" (String s1
      (String s2 EmptyString)))))))))))))))))) =>
      let day := two_digits d1 d2 in
      let hh := two_digits h1 h2 in
      let mm := two_digits m1 m2 in
      let ss := two_digits s1 s2 in
      if forallb is_digit [d1; d2; h1; h2; m1; m2; s1; s2]
         && (1 <=? day) && (day <=? 31) && (hh <=? 23) && (mm <=? 59) && (ss <=? 59)
      then Ok (((739615 + day) * 86400 + hh * 3600 + mm * 60 + ss) * us_per_second)
      else Raise (ValueError "Invalid isoformat string")
  | _ => Raise (ValueError "Invalid isoformat string")
  end.

(** The same for the arguments of the command line: it also accepts the
    UTC offset [+00:00] after such a string, and then returns an aware
    instant. *)
Definition sample_fromisoformat_arg (s : string) : result instant :=
  if decide (String.length s = 25%nat ∧ String.substring 19 6 s = "+00:00")
  then t ← sample_fromisoformat (String.substring 0 19 s); mret (Aware t 0)
  else t ← sample_fromisoformat s; mret (Naive t).

(** The default limit of Python 3.11. *)
Definition sample_int_refuses (s : string) : bool :=
  (4300 <? String.length s)%nat.

(** 2026-01-10T12:00:00 *)
Definition sample_now : datetime :=
  ((739615 + 10) * 86400 + 12 * 3600) * us_per_second.

(** 2026-01-10T[hh]:[mm]:[ss] *)
Definition sample_time (hh mm ss : Z) : datetime :=
  ((739615 + 10) * 86400 + hh * 3600 + mm * 60 + ss) * us_per_second.

Definition newline : string := String "010" "".

(** A file of three lines, and the store loading it gives. *)
Definition sample_text (k : Z) : string :=
  "2026-01-10 10:00:0" +:+ String (Ascii.ascii_of_N (48 + Z.to_N k))
                                  " INFO Application started".

Definition sample_line (k : Z) : LogLine :=
  mkLogLine (sample_text k) k "app.log" (Some (sample_time 10 0 k)) (Some "INFO").

Definition store3 : list LogLine := [sample_line 1; sample_line 2; sample_line 3].

(** A file with a line that has no timestamp. *)
Definition error_log : list string :=
  ["2026-01-10 10:05:00 ERROR NullPointerException in handler" +:+ newline;
   "    at com.example.Handler.process()" +:+ newline;
   "2026-01-10 10:02:30 ERROR Connection to database failed" +:+ newline].

Definition record_exception : LogLine :=
  mkLogLine "2026-01-10 10:05:00 ERROR NullPointerException in handler" 1
            "error.log" (Some (sample_time 10 5 0)) (Some "ERROR").
Definition record_frame : LogLine :=
  mkLogLine "    at com.example.Handler.process()" 2 "error.log" None None.
Definition record_failed : LogLine :=
  mkLogLine "2026-01-10 10:02:30 ERROR Connection to database failed" 3
            "error.log" (Some (sample_time 10 2 30)) (Some "ERROR").

Definition stamped_store : list LogLine :=
  [record_exception; record_frame; record_failed].

(** A store none of whose records has a timestamp. *)
Definition trace_store : list LogLine :=
  [record_frame; mkLogLine "    at com.example.Main.run()" 3 "error.log" None None].

Definition pattern_log : list string :=
  ["2026-01-10 10:02:31 ERROR Retry attempt 1 failed" +:+ newline;
   "2026-01-10 10:10:00 INFO Request from 192.168.1.100" +:+ newline;
   "2026-01-10 10:10:05 INFO Request from 192.168.1.101" +:+ newline;
   "2026-01-10 10:02:35 ERROR Retry attempt 2 failed" +:+ newline;
   "2026-01-10 10:15:02 INFO Cleanup complete" +:+ newline].

Definition pattern_store : list LogLine :=
  Eval vm_compute in
    LogHunter.load_file sample_fromisoformat [] (Ok pattern_log) "app.log".

(** The first sample file of [test_loghunter.py], and the store loading it
    gives. *)
Definition SAMPLE_LOG_1 : list string :=
  (λ text, text +:+ newline) <$>
  ["2026-01-10 10:00:00 INFO Application started";
   "2026-01-10 10:00:01 DEBUG Loading configuration";
   "2026-01-10 10:00:02 INFO Configuration loaded successfully";
   "2026-01-10 10:01:15 WARN High memory usage detected: 85%";
   "2026-01-10 10:02:30 ERROR Connection to database failed";
   "2026-01-10 10:02:31 ERROR Retry attempt 1 failed";
   "2026-01-10 10:02:32 INFO Connection established";
   "2026-01-10 10:05:00 ERROR NullPointerException in handler";
   "2026-01-10 10:05:01 ERROR     at com.example.Handler.process()";
   "2026-01-10 10:05:02 ERROR     at com.example.Main.run()";
   "2026-01-10 10:10:00 INFO Request from 192.168.1.100";
   "2026-01-10 10:10:05 INFO Request from 192.168.1.101";
   "2026-01-10 10:15:00 CRITICAL System overload detected";
   "2026-01-10 10:15:01 ERROR Emergency shutdown initiated";
   "2026-01-10 10:15:02 INFO Cleanup complete"].

Definition app_log : list LogLine :=
  Eval vm_compute in
    LogHunter.load_file sample_fromisoformat [] (Ok SAMPLE_LOG_1) "app.log".

(** [re.compile("Connection", re.IGNORECASE)] *)
Definition connection : pattern := mkPattern (lit "Connection") true.

(** A directory with a readable and an unreadable log file. *)
Definition sample_glob (pattern : string) : list string :=
  if decide (pattern = "*.log") then ["error.log"; "app.log"; "broken.log"] else [].

Definition sample_read (path : string) : result (list string) :=
  if decide (path = "app.log")
  then Ok [sample_text 1 +:+ newline; sample_text 2 +:+ newline; sample_text 3 +:+ newline]
  else if decide (path = "error.log") then Ok error_log
  else Raise OtherError.

(** ** Whole words *)

(** A character of ASCII (a code point below 128). *)
Definition is_ascii (c : ascii) : bool := (Ascii.N_of_ascii c <? 128)%N.

(** [m] is the word [w], up to the case of its letters when [ignorecase]
    is set. *)
Fixpoint same_word (ignorecase : bool) (w m : string) : bool :=
  match w, m with
  | EmptyString, EmptyString => true
  | String c w, String x m => lit_matches ignorecase c x && same_word ignorecase w m
  | _, _ => false
  end.

(** [text] is [pre], then one of the words [ws] written as [m], then [post],
    and [m] stands there as a whole word: no word character comes just
    before it or just after it. *)
Definition whole_word_at (ignorecase : bool) (ws : list string)
    (text pre m post : string) : Prop :=
  text = pre +:+ m +:+ post ∧
  (∃ w, w ∈ ws ∧ same_word ignorecase w m) ∧
  is_word_at (last_char None pre) = false ∧
  is_word_at (string_head post) = false.

(** [\b(w1|w2|...)\b] *)
Definition word_pattern (ws : list string) (ignorecase : bool) : pattern :=
  mkPattern (cat [WordB; Group 1 (alt (lit <$> ws)); WordB]) ignorecase.

(** The prefix of [s] that is the word [w], and the rest of [s]. *)
Fixpoint strip_word (ignorecase : bool) (w s : string) : option (string * string) :=
  match w with
  | EmptyString => Some (EmptyString, s)
  | String c w =>
      match s with
      | String x s =>
          if lit_matches ignorecase c x
          then (λ mr, (String x mr.1, mr.2)) <$> strip_word ignorecase w s
          else None
      | EmptyString => None
      end
  end.

(** The first result among those of [f] on the elements of [l]. *)
Fixpoint first_some {A B} (f : A → option B) (l : list A) : option B :=
  match l with
  | [] => None
  | x :: l => match f x with Some y => Some y | None => first_some f l end
  end.

(** The words of [get_exceptions]. *)
Definition exception_words : list string := ["Exception"; "Error"; "Traceback"].

Definition record_error_word : LogLine :=
  mkLogLine "Traceback (most recent call last):" 7 "error.log" None None.

(** ** [main]: the results of the [search] command *)

(** [l.index(x)]: the position of the first element of [l] equal to [x].
    [LogLine] defines no [__eq__], so a record equals only itself; the
    records here are values, and in a store whose records differ pairwise the
    first equal element is the record itself. *)
Fixpoint index (l : list LogLine) (x : LogLine) : result Z :=
  match l with
  | [] => Raise (ValueError "x is not in list")
  | y :: l => if decide (y = x) then Ok 0 else i ← index l x; mret (i + 1)
  end.

Section search_results.
(** [re.compile], given the pattern and whether [re.IGNORECASE] is set. *)
Variable compile : string → bool → result pattern.

(** The [search] branch of [main], up to the records it hands to
    [print_lines]; [context] is the value of [--context]. *)
Definition search_results (lines : list LogLine) (pattern : string)
    (ignore_case : bool) (context : Z) : result (list LogLine) :=
  results ← LogHunter.filter_by_pattern compile lines pattern (negb ignore_case);
  if 0 <? context then
    indices ← mapM (index lines) results;
    mret (LogHunter.context lines indices context context)
  else mret results.
End search_results.

(** [re.compile] for the examples: it knows the pattern [Connection]. *)
Definition sample_compile (source : string) (ignorecase : bool) : result pattern :=
  if decide (source = "Connection") then Ok (mkPattern (lit "Connection") ignorecase)
  else Raise OtherError.

(** ** Time ranges *)

(** The later of two optional lower bounds, the earlier of two optional
    upper bounds. *)
Definition later_start (a b : option datetime) : option datetime :=
  match a, b with
  | Some x, Some y => Some (x `max` y)
  | Some x, None => Some x
  | None, b => b
  end.

Definition earlier_end (a b : option datetime) : option datetime :=
  match a, b with
  | Some x, Some y => Some (x `min` y)
  | Some x, None => Some x
  | None, b => b
  end.
(** ** [print_lines] *)

Section print_lines.
(** [Path(p).name] and [str] of an integer. *)
Variable Path_name : string → string.
Variable str_int : Z → string.
(** [highlight.sub(repl, s)] for the replacement of [print_lines], which
    wraps each match in the escape sequences of bold red. *)
Variable highlight_sub : pattern → string → string.

(** [LogLine.__str__] *)
Definition LogLine_str (self : LogLine) : string :=
  Path_name (file_path self) +:+ ":" +:+ str_int (line_num self) +:+ ": " +:+ line self.

(** The text the loop of [print_lines] prints for one record. *)
Definition print_line (highlight : option pattern) (r : LogLine) : string :=
  let line_str := LogLine_str r in
  match highlight with
  | Some h => highlight_sub h line_str
  | None => line_str
  end.

Definition more_results (count : Z) : string :=
  String "010" "... " +:+ str_int count +:+ " more results (use --limit to see more)".

(** [print_lines]: the arguments of its calls of [print], in order.  A
    [limit] that is [None] or 0 is false. *)
Definition print_lines (lines : list LogLine) (limit : option Z)
    (highlight : option pattern) : list string :=
  if negb (nonempty lines) then ["No results found."]
  else
    let limit_true := match limit with Some n => negb (n =? 0) | None => false end in
    let display_lines :=
      match limit with
      | Some n => if limit_true then py_slice lines None (Some n) else lines
      | None => lines
      end in
    let printed := print_line highlight <$> display_lines in
    match limit with
    | Some n =>
        if limit_true && (n <? Z.of_nat (length lines))
        then printed ++ [more_results (Z.of_nat (length lines) - n)]
        else printed
    | None => printed
    end.
End print_lines.

(** ** [main]: the [time] command *)

Section time_command.
Variable now : datetime.
Variable fromisoformat : string → result instant.
Variable int_refuses : string → bool.


End time_command.

(** Sample renderings, for the examples. *)
Definition sample_str_int (n : Z) : string :=
  if decide (n = 13) then "13" else if decide (n = 17) then "17" else "?".

(** ** Text without digits *)

Definition no_digit (c : ascii) : bool := negb (is_digit c).
(** ** Totals of counts *)

(** The sum of the counts of a ranking. *)
Definition sum_counts (res : list (string * Z)) : Z :=
  foldr (λ x acc, x.2 + acc) 0 res.

(** * Properties *)

(** ** Slices, [head] and [tail] *)

Section slices.
Context {A : Type}.
Implicit Types l : list A.

Lemma py_slice_prefix l n :
  0 ≤ n → py_slice l None (Some n) = take (Z.to_nat n) l.
Proof.
  intros Hn. unfold py_slice, adjust_index; simpl.
  destruct (Z.ltb_spec n 0); [lia|].
  rewrite drop_0, Z.sub_0_r.
  destruct (Z.le_gt_cases n (Z.of_nat (length l))).
  - by rewrite Z.min_l.
  - rewrite Z.min_r, Nat2Z.id by lia.
    rewrite !take_ge; [done|lia..].
Qed.

Lemma py_slice_prefix_neg l n :
  n < 0 → py_slice l None (Some n) = take (length l - Z.to_nat (- n)) l.
Proof.
  intros Hn. unfold py_slice, adjust_index; simpl.
  destruct (Z.ltb_spec n 0); [|lia].
  rewrite drop_0, Z.sub_0_r. f_equal. lia.
Qed.

Lemma py_slice_suffix l n :
  0 < n → py_slice l (Some (- n)) None = drop (length l - Z.to_nat n) l.
Proof.
  intros Hn. unfold py_slice, adjust_index; simpl.
  destruct (Z.ltb_spec (- n) 0); [|lia].
  rewrite take_ge; [f_equal; lia|].
  rewrite length_drop. lia.
Qed.

Lemma py_slice_suffix_nonpos l n :
  n ≤ 0 → py_slice l (Some (- n)) None = drop (Z.to_nat (- n)) l.
Proof.
  intros Hn. unfold py_slice, adjust_index; simpl.
  destruct (Z.ltb_spec (- n) 0); [lia|].
  destruct (Z.le_gt_cases (- n) (Z.of_nat (length l))).
  - rewrite Z.min_l by done. apply take_ge. rewrite length_drop. lia.
  - rewrite Z.min_r, Nat2Z.id by lia.
    rewrite !drop_ge; [by rewrite take_nil|lia..].
Qed.

(** The records of a prefix and of a suffix of a duplicate-free list are
    disjoint exactly when the two position ranges are. *)
Lemma take_drop_disjoint l h t :
  NoDup l →
  (∀ x, x ∈ take h l → x ∉ drop t l) ↔ (h `min` length l ≤ t)%nat.
Proof.
  intros Hnd. split.
  - intros Hdis. destruct (decide (h `min` length l ≤ t)%nat) as [|Hlt]; [done|].
    exfalso. destruct (lookup_lt_is_Some_2 l t) as [x Hx]; [lia|].
    apply (Hdis x).
    + apply elem_of_take. exists t. split; [done|lia].
    + apply list_elem_of_lookup. exists 0%nat.
      by rewrite lookup_drop, Nat.add_0_r.
  - intros Hle x [i [Hi Hih]]%elem_of_take [j Hj]%list_elem_of_lookup.
    rewrite lookup_drop in Hj.
    pose proof (NoDup_lookup _ _ _ _ Hnd Hi Hj).
    apply lookup_lt_Some in Hi. lia.
Qed.
End slices.

Section head_tail.
Implicit Types lines : list LogLine.
Import LogHunter.

Lemma head_nil n : head [] n = [].
Proof. done. Qed.

Lemma tail_nil n : tail [] n = [].
Proof. done. Qed.

Lemma head_nonneg lines n :
  0 ≤ n → head lines n = take (Z.to_nat n) lines.
Proof.
  intros Hn. unfold head. destruct lines as [|r lines]; simpl nonempty; cbv iota.
  - by rewrite take_nil.
  - by apply py_slice_prefix.
Qed.

Lemma head_neg lines n :
  n < 0 → head lines n = take (length lines - Z.to_nat (- n)) lines.
Proof.
  intros Hn. unfold head. destruct lines as [|r lines]; simpl nonempty; cbv iota.
  - by rewrite take_nil.
  - by apply py_slice_prefix_neg.
Qed.

Lemma tail_pos lines n :
  0 < n → tail lines n = drop (length lines - Z.to_nat n) lines.
Proof.
  intros Hn. unfold tail. destruct lines as [|r lines]; simpl nonempty; cbv iota.
  - by rewrite drop_nil.
  - by apply py_slice_suffix.
Qed.

Lemma tail_nonpos lines n :
  n ≤ 0 → tail lines n = drop (Z.to_nat (- n)) lines.
Proof.
  intros Hn. unfold tail. destruct lines as [|r lines]; simpl nonempty; cbv iota.
  - by rewrite drop_nil.
  - by apply py_slice_suffix_nonpos.
Qed.
End head_tail.

Section head_tail_properties.
Implicit Types lines : list LogLine.
Import LogHunter.

Lemma head_first_records lines n : 0 ≤ n → head lines n = first_records lines n.
Proof.
  intros Hn. rewrite head_nonneg by done. unfold first_records.
  destruct (Z.le_gt_cases n (Z.of_nat (length lines))).
  - by rewrite Z.min_l.
  - rewrite Z.min_r, Nat2Z.id by lia. rewrite !take_ge; [done|lia..].
Qed.

Lemma tail_last_records lines n : 0 < n → tail lines n = last_records lines n.
Proof.
  intros Hn. rewrite tail_pos by done. unfold last_records. f_equal. lia.
Qed.

Lemma tail_zero lines : tail lines 0 = lines.
Proof. rewrite tail_nonpos by done. apply drop_0. Qed.

Lemma head_whole lines n : Z.of_nat (length lines) ≤ n → head lines n = lines.
Proof. intros Hn. rewrite head_nonneg by lia. apply take_ge. lia. Qed.

Lemma tail_whole lines n : Z.of_nat (length lines) ≤ n → tail lines n = lines.
Proof.
  intros Hn. destruct (decide (n = 0)) as [->|]; [apply tail_zero|].
  rewrite tail_pos by lia. replace (_ - _)%nat with 0%nat by lia. apply drop_0.
Qed.

(** Positions taken by [head] and positions skipped by [tail]. *)
Lemma head_tail_take_drop lines n :
  head lines n = take (Z.to_nat (if n <? 0 then Z.of_nat (length lines) + n else n)) lines ∧
  tail lines n = drop (Z.to_nat (if 0 <? n then Z.of_nat (length lines) - n else - n)) lines.
Proof.
  split.
  - destruct (Z.ltb_spec n 0).
    + rewrite head_neg by done. f_equal. lia.
    + by rewrite head_nonneg.
  - destruct (Z.ltb_spec 0 n).
    + rewrite tail_pos by done. f_equal. lia.
    + by rewrite tail_nonpos.
Qed.

(** C1 (as stated) fails: with three records, [head(2)] and [tail(2)]
    share the middle record although [2 < 3]. *)
Lemma head_tail_overlap : ¬ head_tail_cover_disjoint store3 2.
Proof.
  intros [_ Hdis]. apply (Hdis ltac:(simpl; lia) (sample_line 2)).
  - by apply (bool_decide_unpack _).
  - by apply (bool_decide_unpack _).
Qed.

(** C1 (amended): for [n ≥ size] both [head(n)] and [tail(n)] are the whole
    store.  On a store of pairwise distinct records, [head(n)] and [tail(n)]
    have no record in common exactly when the store is empty, or
    [0 ≤ n] and [2n ≤ size], or [n < 0] and [size ≤ -2n]; and for
    [0 ≤ n], [2n ≤ size] the store splits as
    [head(n) ++ middle ++ tail(n)]. *)
Theorem head_tail_cover_or_disjoint lines n :
  (Z.of_nat (length lines) ≤ n → head lines n = lines ∧ tail lines n = lines) ∧
  (NoDup lines →
     (∀ r, r ∈ head lines n → r ∉ tail lines n) ↔
     (lines = [] ∨ (0 ≤ n ∧ 2 * n ≤ Z.of_nat (length lines))
                 ∨ (n < 0 ∧ Z.of_nat (length lines) ≤ - 2 * n))) ∧
  (0 ≤ n → 2 * n ≤ Z.of_nat (length lines) →
     ∃ middle, lines = head lines n ++ middle ++ tail lines n).
Proof.
  split; [|split].
  - intros Hn. split; [by apply head_whole | by apply tail_whole].
  - intros Hnd. destruct (head_tail_take_drop lines n) as [-> ->].
    rewrite take_drop_disjoint by done.
    destruct lines as [|r lines]; [simpl; split; [by left|lia]|].
    assert (0 < Z.of_nat (length (r :: lines))) by (simpl; lia).
    destruct (Z.ltb_spec n 0), (Z.ltb_spec 0 n); split; try lia.
    all: intros [?|?]; [done|lia].
  - intros Hn Hle. destruct (decide (n = 0)) as [->|Hn0].
    + exists []. by rewrite tail_zero, head_nonneg.
    + rewrite head_nonneg, tail_pos by lia.
      exists (take (length lines - 2 * Z.to_nat n) (drop (Z.to_nat n) lines)).
      rewrite <-(take_drop (Z.to_nat n) lines) at 1. f_equal.
      rewrite <-(take_drop (length lines - 2 * Z.to_nat n) (drop (Z.to_nat n) lines)) at 1.
      f_equal. rewrite drop_drop. f_equal. lia.
Qed.

Lemma head_tail_cover_or_disjoint_witness :
  (head store3 5 = store3 ∧ tail store3 5 = store3) ∧
  (∀ r, r ∈ head store3 1 → r ∉ tail store3 1) ∧
  (∃ middle, store3 = head store3 1 ++ middle ++ tail store3 1).
Proof.
  split; [|split].
  - apply (head_tail_cover_or_disjoint store3 5). simpl. lia.
  - apply (head_tail_cover_or_disjoint store3 1).
    + by apply (bool_decide_unpack _).
    + right. left. simpl. lia.
  - apply (head_tail_cover_or_disjoint store3 1); simpl; lia.
Defined.

(** C2 (the code departs from it at [n = 0]): for every store, [tail(0)] is
    the whole store, whereas the last [min(0, size) = 0] records are none, as
    is [head(0)]; on a non-empty store [tail(0)] is therefore not the last
    0 records. *)
Theorem tail_zero_returns_store lines :
  tail lines 0 = lines ∧ last_records lines 0 = [] ∧ head lines 0 = [].
Proof.
  split_and!.
  - apply tail_zero.
  - unfold last_records. apply drop_ge. lia.
  - by rewrite head_nonneg.
Qed.

Example tail_zero_sample :
  tail store3 0 = store3 ∧ tail store3 0 ≠ last_records store3 0.
Proof. by vm_compute. Qed.
End head_tail_properties.

(** ** [context] *)

Section windows.
Context {A : Type}.
Implicit Types l : list A.

Lemma filter_seqZ_range (lo hi m n : Z) :
  filter (λ p, lo ≤ p ≤ hi) (seqZ m n)
  = seqZ (m `max` lo) ((m + n) `min` (hi + 1) - m `max` lo).
Proof.
  destruct (Z.le_gt_cases n 0) as [Hn|Hn].
  { rewrite !seqZ_nil by lia. done. }
  rewrite <-(Z2Nat.id n) by lia. generalize (Z.to_nat n) as k. clear Hn n.
  intros k. revert m. induction k as [|k IH]; intros m.
  { rewrite !seqZ_nil by lia. done. }
  rewrite (seqZ_cons m) by lia.
  replace (Z.pred (Z.of_nat (S k))) with (Z.of_nat k) by lia.
  rewrite filter_cons, IH. case_decide as Hm.
  - rewrite (seqZ_cons (m `max` lo)) by lia.
    f_equal; [lia|]. f_equal; lia.
  - destruct (Z.lt_ge_cases m lo).
    + f_equal; lia.
    + rewrite !seqZ_nil by lia. done.
Qed.

Lemma omap_lookup_seqZ l (a n : Z) :
  0 ≤ a →
  omap (λ p, l !! Z.to_nat p) (seqZ a n) = take (Z.to_nat n) (drop (Z.to_nat a) l).
Proof.
  intros Ha. destruct (Z.le_gt_cases n 0) as [Hn|Hn].
  { rewrite seqZ_nil by lia. by replace (Z.to_nat n) with 0%nat by lia. }
  rewrite <-(Z2Nat.id n) at 1 by lia. generalize (Z.to_nat n) as k. clear Hn n.
  intros k. revert a Ha. induction k as [|k IH]; intros a Ha.
  { by rewrite seqZ_nil. }
  rewrite seqZ_cons by lia.
  replace (Z.pred (Z.of_nat (S k))) with (Z.of_nat k) by lia.
  cbn [omap list_omap]. rewrite IH by lia.
  replace (Z.to_nat (Z.succ a)) with (S (Z.to_nat a)) by lia.
  destruct (l !! Z.to_nat a) as [x|] eqn:Hx.
  - by rewrite (drop_S _ _ _ Hx).
  - apply lookup_ge_None in Hx. rewrite !drop_ge by lia. by rewrite !take_nil.
Qed.
End windows.

Lemma filter_all {A} (P : A → Prop) `{∀ x, Decision (P x)} (l : list A) :
  (∀ x, P x) → filter P l = l.
Proof.
  intros HP. induction l as [|x l IH]; [done|].
  by rewrite filter_cons_True, IH.
Qed.

Section context_properties.
Implicit Types lines : list LogLine.
Import LogHunter.

(** With a non-negative upper end, the slice the code takes is the clamped
    inclusive window. *)
Lemma py_slice_window lines lo hi :
  0 ≤ hi + 1 →
  py_slice lines (Some (0 `max` lo))
                 (Some (Z.of_nat (length lines) `min` (hi + 1)))
  = window lines lo hi.
Proof.
  intros Hhi. unfold window. rewrite filter_seqZ_range, omap_lookup_seqZ by lia.
  unfold py_slice, adjust_index; simpl.
  destruct (Z.ltb_spec (0 `max` lo) 0); [lia|].
  destruct (Z.ltb_spec (Z.of_nat (length lines) `min` (hi + 1)) 0); [lia|].
  destruct (Z.le_gt_cases (0 `max` lo) (Z.of_nat (length lines))).
  - f_equal; [lia|]. f_equal. lia.
  - rewrite !drop_ge by lia. by rewrite !take_nil.
Qed.

Lemma context_extend_windows lines before after indices result :
  Forall (λ idx, -1 ≤ idx + after) indices →
  foldl (context_extend lines before after) result indices
  = result ++ mjoin ((λ idx, window lines (idx - before) (idx + after)) <$> indices).
Proof.
  intros Hall. revert result.
  induction Hall as [|idx indices Hidx _ IH]; intros result; simpl.
  { by rewrite app_nil_r. }
  rewrite IH. unfold context_extend. rewrite py_slice_window by lia.
  by rewrite <-app_assoc.
Qed.

Lemma context_unique_keep_first (l : list LogLine) seen unique :
  (foldl context_unique (seen, unique) l).2
  = unique ++ filter (λ r, key r ∉ seen) (keep_first key l).
Proof.
  revert seen unique. induction l as [|x l IH]; intros seen unique; simpl.
  { by rewrite app_nil_r. }
  case_decide as Hx; rewrite IH.
  - f_equal. rewrite filter_cons_False by (intros Hn; exact (Hn Hx)).
    rewrite list_filter_filter. apply list_filter_iff.
    intros r. intuition congruence.
  - rewrite <-app_assoc. f_equal. simpl.
    rewrite filter_cons_True by done. f_equal.
    rewrite list_filter_filter. apply list_filter_iff.
    intros r. rewrite elem_of_union, elem_of_singleton. intuition congruence.
Qed.

Lemma context_keep_first lines indices before after :
  context lines indices before after
  = keep_first key (foldl (context_extend lines before after) [] indices).
Proof.
  unfold context. rewrite context_unique_keep_first. simpl.
  apply filter_all. intros r. apply not_elem_of_empty.
Qed.

Lemma keep_first_subseteq {A K} `{EqDecision K} (f : A → K) (l : list A) :
  keep_first f l ⊆ l.
Proof.
  induction l as [|x l IH]; simpl; [done|].
  intros y [->|Hy]%elem_of_cons; [by left|].
  right. apply IH. by apply list_elem_of_filter in Hy as [_ ?].
Qed.

Lemma keep_first_NoDup {A K} `{EqDecision K} (f : A → K) (l : list A) :
  NoDup (f <$> keep_first f l).
Proof.
  induction l as [|x l IH]; simpl; [constructor|].
  apply NoDup_cons. split.
  - intros (y & Hy1 & Hy2)%list_elem_of_fmap.
    apply list_elem_of_filter in Hy2 as [Hne _]. congruence.
  - eapply sublist_NoDup; [exact IH|].
    apply fmap_sublist, sublist_filter.
Qed.

Lemma context_extend_from_store lines before after indices result r :
  r ∈ foldl (context_extend lines before after) result indices →
  r ∈ result ∨ r ∈ lines.
Proof.
  revert result. induction indices as [|idx indices IH]; intros result; simpl.
  { by left. }
  intros [[Hr|Hr]%elem_of_app|Hr]%IH; [by left| |by right].
  right. unfold py_slice in Hr.
  by apply subseteq_take, subseteq_drop in Hr.
Qed.

(** C3 (as stated) fails for a negative [after]: around index 0 of a
    three-record store with [before = 0] and [after = -3] the window
    [[0, -3]] is empty, but the code slices [lines[0:-2]], the first record. *)
Lemma context_negative_after : ¬ context_as_specified store3 [0] 0 (-3).
Proof.
  intros Hspec.
  assert (Hin : Forall (λ idx, 0 ≤ idx < Z.of_nat (length store3)) [0]).
  { repeat constructor; simpl; lia. }
  specialize (Hspec Hin). vm_compute in Hspec. discriminate.
Qed.

(** C3 (amended): for every store, indices, [before] and [after], the result
    of [context] has no two records with the same
    [(source_path, line_number)] and every returned record is at a store
    position in [[0, size)].  When [index + after ≥ -1] for every given
    index (so for in-range indices and every [after ≥ -1]), the result is
    the concatenation, in the given index order, of the inclusive windows
    [[index - before, index + after]] clamped to the store, de-duplicated by
    [(source_path, line_number)] keeping the first occurrence. *)
Theorem context_windows_deduplicated lines indices before after :
  NoDup (key <$> context lines indices before after) ∧
  (∀ r, r ∈ context lines indices before after →
        ∃ p, (p < length lines)%nat ∧ lines !! p = Some r) ∧
  (Forall (λ idx, -1 ≤ idx + after) indices →
   context lines indices before after = context_spec lines indices before after).
Proof.
  rewrite context_keep_first. split; [|split].
  - apply keep_first_NoDup.
  - intros r Hr%keep_first_subseteq.
    apply context_extend_from_store in Hr as [Hr|Hr]; [by apply elem_of_nil in Hr|].
    apply list_elem_of_lookup in Hr as [p Hp]. exists p. split; [|done].
    by eapply lookup_lt_Some.
  - intros Hall. by rewrite context_extend_windows.
Qed.

Lemma context_windows_deduplicated_witness :
  context store3 [1; 0] 1 0 = [sample_line 1; sample_line 2].
Proof.
  transitivity (context_spec store3 [1; 0] 1 0); [|by vm_compute].
  apply (context_windows_deduplicated store3 [1; 0] 1 0).
  repeat constructor; lia.
Defined.
End context_properties.

(** ** [filter_by_level] *)

Section level_properties.
Implicit Types lines : list LogLine.
Import LogHunter.

Lemma matches_level_spec (r : LogLine) levels :
  matches_level r levels ↔
  ∃ lv, level r = Some lv ∧ lv ≠ "" ∧ lv ∈ upper <$> levels.
Proof.
  unfold matches_level. destruct (level r) as [lv|].
  2:{ split; [done|]. by intros (lv & [=] & _). }
  destruct lv as [|c lv]; simpl.
  { split; [done|]. by intros (lv & [= <-] & Hne & _). }
  rewrite bool_decide_spec. split.
  - intros Hin. by exists (String c lv).
  - by intros (lv' & [= <-] & _ & Hin).
Qed.

Lemma matches_level_mono (r : LogLine) S L :
  ci_superset S L → matches_level r L → matches_level r S.
Proof.
  intros Hsup. rewrite !matches_level_spec.
  intros (lv & Hlv & Hne & (l & -> & Hl)%list_elem_of_fmap).
  exists (upper l). split_and!; [done..|].
  destruct (Hsup l Hl) as (s & Hs & <-). by apply list_elem_of_fmap_2.
Qed.

(** C5: when [S] is case-insensitively a superset of [L], filtering by [L]
    and then by [S] gives the same sequence as filtering by [L] alone, and
    both results are subsequences of the original sequence (the original
    order is preserved). *)
Theorem filter_by_level_superset lines S L :
  ci_superset S L →
  filter_by_level (filter_by_level lines L) S = filter_by_level lines L ∧
  filter_by_level lines L `sublist_of` lines ∧
  filter_by_level (filter_by_level lines L) S `sublist_of` lines.
Proof.
  intros Hsup. unfold filter_by_level.
  assert (filter (λ r, matches_level r S) (filter (λ r, matches_level r L) lines)
          = filter (λ r, matches_level r L) lines) as Heq.
  { rewrite list_filter_filter. apply list_filter_iff. intros r.
    split; [tauto|]. intros HL. split; [|done]. by eapply matches_level_mono. }
  rewrite Heq. split_and!; [done|apply sublist_filter..].
Qed.

Lemma filter_by_level_superset_witness :
  filter_by_level (filter_by_level store3 ["info"]) ["WARN"; "Info"]
  = filter_by_level store3 ["info"].
Proof.
  apply (filter_by_level_superset store3 ["WARN"; "Info"] ["info"]).
  intros l ->%list_elem_of_singleton. exists "Info".
  split; [by apply (bool_decide_unpack _)|reflexivity].
Defined.
End level_properties.

(** ** [filter_by_time_range] *)

Section time_range_properties.
Implicit Types lines : list LogLine.
Import LogHunter.

Lemma time_range_step_spec start end_ acc (r : LogLine) :
  time_range_step start end_ acc r
  = if compared_with_aware start end_ r then Raise TypeError
    else Ok (acc ++ filter (in_instant_range start end_) [r]).
Proof.
  unfold time_range_step, compared_with_aware.
  rewrite filter_cons, filter_nil.
  case_decide as Hin; unfold in_instant_range, in_time_range in Hin;
    destruct (timestamp r) as [ts|]; rewrite ?app_nil_r; try done.
  all: destruct start as [[s|s off]|], end_ as [[e|e off']|]; simpl in *; try done.
  all: repeat match goal with
       | |- context [(?a <? ?b)] => destruct (Z.ltb_spec a b); simpl
       end; try done; exfalso; lia.
Qed.

Lemma filter_by_time_range_loop start end_ lines acc :
  for_each (time_range_step start end_) acc lines
  = if existsb (compared_with_aware start end_) lines then Raise TypeError
    else Ok (acc ++ filter (in_instant_range start end_) lines).
Proof.
  revert acc. induction lines as [|r lines IH]; intros acc; simpl.
  { by rewrite app_nil_r. }
  rewrite time_range_step_spec.
  destruct (compared_with_aware start end_ r); simpl; [done|].
  rewrite IH. destruct (existsb _ lines); [done|].
  by rewrite <-app_assoc, <-filter_app.
Qed.

Lemma compared_with_naive (start end_ : option datetime) lines :
  existsb (compared_with_aware (Naive <$> start) (Naive <$> end_)) lines = false.
Proof.
  induction lines as [|r lines IH]; [done|]. simpl. rewrite IH.
  unfold compared_with_aware.
  destruct (timestamp r) as [ts|], start as [s|], end_ as [e|]; simpl; try done.
  all: by destruct (ts <? s).
Qed.

(** With naive bounds nothing is raised, and the loop is a filter. *)
Lemma filter_by_time_range_naive lines (start end_ : option datetime) :
  filter_by_time_range lines (Naive <$> start) (Naive <$> end_)
  = Ok (filter (in_time_range start end_) lines).
Proof.
  unfold filter_by_time_range.
  rewrite filter_by_time_range_loop, compared_with_naive. simpl. f_equal.
  apply list_filter_iff. intros r. unfold in_instant_range.
  by destruct start, end_.
Qed.

(** C4 (as stated) fails for a bound with a UTC offset, which
    [datetime.fromisoformat] returns for an argument such as
    [2026-01-10T10:00:00+00:00]: comparing the first stamped record with it
    raises [TypeError], and nothing is returned. *)
Lemma filter_by_time_range_aware_bound :
  ¬ filter_by_time_range_as_specified stamped_store
      (Some (Aware (sample_time 10 0 0) 0)) None.
Proof. by vm_compute. Qed.

(** C4 (amended): for every store and every choice of optional [start] and
    [end_] without UTC offset (naive, as the timestamps of the records
    are), [filter_by_time_range] returns exactly the records, in store
    order, that have a timestamp [ts] with [start ≤ ts] when [start] is
    supplied and [ts ≤ end_] when [end_] is supplied.  For bounds of any
    kind, the call raises [TypeError] exactly when some record has a
    timestamp that gets compared with an aware bound, and otherwise returns
    those records; whenever it returns, no record without a timestamp is
    in the result. *)
Theorem filter_by_time_range_spec lines :
  (∀ start end_ : option datetime,
     filter_by_time_range lines (Naive <$> start) (Naive <$> end_)
     = Ok (filter (in_time_range start end_) lines)) ∧
  (∀ start end_,
     filter_by_time_range lines start end_
     = if existsb (compared_with_aware start end_) lines then Raise TypeError
       else Ok (filter (in_instant_range start end_) lines)) ∧
  (∀ start end_ res r,
     filter_by_time_range lines start end_ = Ok res → r ∈ res →
     timestamp r ≠ None).
Proof.
  split_and!.
  - apply filter_by_time_range_naive.
  - intros start end_. unfold filter_by_time_range.
    by rewrite filter_by_time_range_loop.
  - intros start end_ res r. unfold filter_by_time_range.
    rewrite filter_by_time_range_loop. destruct (existsb _ _); [done|].
    intros [= <-] [Hr _]%list_elem_of_filter.
    unfold in_instant_range, in_time_range in Hr. by destruct (timestamp r).
Qed.
End time_range_properties.

Lemma filter_by_time_range_spec_witness :
  timestamp record_failed ≠ None.
Proof.
  apply (proj2 (proj2 (filter_by_time_range_spec stamped_store)) None
           (Some (Naive (sample_time 10 3 0))) [record_failed] record_failed).
  - reflexivity.
  - by left.
Defined.

(** ** Counters *)

Section counters.
Implicit Types (c : Counter) (l : list string) (k : string).

Lemma counter_get_incr elem c k :
  counter_get (counter_incr elem c) k
  = counter_get c k + (if decide (elem = k) then 1 else 0).
Proof.
  induction c as [|[k' n] c IH]; simpl.
  - repeat case_decide; lia.
  - repeat (case_decide; simpl); subst; try congruence; try lia.
Qed.

Lemma counter_get_foldl l c k :
  counter_get (foldl (λ c elem, counter_incr elem c) c l) k
  = counter_get c k + occurrences k l.
Proof.
  unfold occurrences. revert c. induction l as [|x l IH]; intros c; simpl.
  { lia. }
  rewrite IH, counter_get_incr, filter_cons.
  repeat case_decide; simpl; lia.
Qed.

Lemma counter_get_Counter_of l k :
  counter_get (Counter_of l) k = occurrences k l.
Proof. unfold Counter_of. by rewrite counter_get_foldl. Qed.
End counters.

(** ** [get_statistics] *)

Section statistics_properties.
Implicit Types lines : list LogLine.
Import LogHunter.

Lemma length_filter_cons {A} (P : A → Prop) `{∀ x, Decision (P x)} x (l : list A) :
  Z.of_nat (length (filter P (x :: l)))
  = (if decide (P x) then 1 else 0) + Z.of_nat (length (filter P l)).
Proof. rewrite filter_cons. case_decide; simpl; lia. Qed.

Local Ltac fold_omap :=
  repeat match goal with
  | |- context [list_omap ?A ?B ?f ?l] => change (list_omap A B f l) with (omap f l)
  end.

Lemma occurrences_present_levels lines k :
  k ≠ "" → occurrences k (present_levels lines) = level_count lines k.
Proof.
  intros Hk. unfold occurrences, level_count, present_levels.
  induction lines as [|r lines IH]; [done|].
  rewrite length_filter_cons, <-IH. simpl.
  destruct (level r) as [[|a lv]|]; simpl; fold_omap.
  - case_decide; [congruence|lia].
  - rewrite length_filter_cons. repeat case_decide; congruence || lia.
  - repeat case_decide; congruence || lia.
Qed.

Lemma matches_level_literal (r : LogLine) levels :
  upper <$> levels = levels → "" ∉ levels →
  matches_level r levels ↔ ∃ k, k ∈ levels ∧ level r = Some k.
Proof.
  intros Hup Hne. rewrite matches_level_spec, Hup. split.
  - intros (lv & ? & _ & ?). by exists lv.
  - intros (k & ? & ?). exists k. split_and!; [done| |done]. by intros ->.
Qed.

Lemma get_errors_count lines :
  Z.of_nat (length (get_errors lines))
  = level_count lines "ERROR" + level_count lines "FATAL" + level_count lines "CRITICAL".
Proof.
  unfold get_errors, filter_by_level, level_count.
  induction lines as [|r lines IH]; [done|].
  rewrite !length_filter_cons, IH.
  assert (matches_level r ["ERROR"; "FATAL"; "CRITICAL"] ↔
          level r = Some "ERROR" ∨ level r = Some "FATAL" ∨ level r = Some "CRITICAL")
    as Hiff.
  { rewrite matches_level_literal; [|done|by apply (bool_decide_unpack _)].
    setoid_rewrite elem_of_cons. setoid_rewrite elem_of_cons.
    setoid_rewrite elem_of_cons. setoid_rewrite elem_of_nil.
    split.
    - intros (k & [->|[->|[->|[]]]] & ?); tauto.
    - intros [?|[?|?]]; eexists; (split; [|done]); tauto. }
  repeat case_decide; try lia; try (exfalso; tauto); try congruence.
Qed.

Lemma get_warnings_count lines :
  Z.of_nat (length (get_warnings lines))
  = level_count lines "WARN" + level_count lines "WARNING".
Proof.
  unfold get_warnings, filter_by_level, level_count.
  induction lines as [|r lines IH]; [done|].
  rewrite !length_filter_cons, IH.
  assert (matches_level r ["WARN"; "WARNING"] ↔
          level r = Some "WARN" ∨ level r = Some "WARNING") as Hiff.
  { rewrite matches_level_literal; [|done|by apply (bool_decide_unpack _)].
    setoid_rewrite elem_of_cons. setoid_rewrite elem_of_cons.
    setoid_rewrite elem_of_nil.
    split.
    - intros (k & [->|[->|[]]] & ?); tauto.
    - intros [?|?]; eexists; (split; [|done]); tauto. }
  repeat case_decide; try lia; try (exfalso; tauto); try congruence.
Qed.

Lemma get_statistics_lookup lines k :
  k ≠ "time_start" → k ≠ "time_end" → k ≠ "time_span" →
  get_statistics lines !! k
  = (<["exceptions" := VInt (Z.of_nat (length (get_exceptions lines)))]>
    (<["warnings" := VInt (Z.of_nat (length (get_warnings lines)))]>
    (<["errors" := VInt (Z.of_nat (length (get_errors lines)))]>
    (<["levels" := VCounter (Counter_of (present_levels lines))]>
    (<["files" := VInt (Z.of_nat (size (list_to_set (file_path <$> lines) : gset string)))]>
    (<["total_lines" := VInt (Z.of_nat (length lines))]>
       (∅ : gmap string stat_value))))))) !! k.
Proof.
  intros. unfold get_statistics. destruct (omap timestamp lines); [done|].
  by rewrite !lookup_insert_ne by congruence.
Qed.

(** C10: the ['errors'] count of the snapshot is the sum of the histogram
    entries for ERROR, FATAL and CRITICAL, and the ['warnings'] count the sum
    of the entries for WARN and WARNING (a missing entry counting 0); every
    entry of the histogram is the number of records with that level. *)
Theorem statistics_counts_agree lines :
  ∃ levels,
    get_statistics lines !! "levels" = Some (VCounter levels) ∧
    get_statistics lines !! "errors"
    = Some (VInt (counter_get levels "ERROR" + counter_get levels "FATAL"
                  + counter_get levels "CRITICAL")) ∧
    get_statistics lines !! "warnings"
    = Some (VInt (counter_get levels "WARN" + counter_get levels "WARNING")) ∧
    ∀ k, counter_get levels k = if decide (k = "") then 0 else level_count lines k.
Proof.
  exists (Counter_of (present_levels lines)).
  rewrite !get_statistics_lookup by done.
  assert (∀ k, counter_get (Counter_of (present_levels lines)) k
               = if decide (k = "") then 0 else level_count lines k) as Hget.
  { intros k. rewrite counter_get_Counter_of. case_decide as Hk.
    - subst k. unfold occurrences, present_levels.
      induction lines as [|r lines IH]; [done|]. simpl.
      destruct (level r) as [[|a lv]|]; simpl; [done| |done].
      rewrite filter_cons_False by done. done.
    - by apply occurrences_present_levels. }
  split_and!; [done | | | done].
  - rewrite lookup_insert_ne, lookup_insert_ne, lookup_insert_eq by done.
    rewrite !Hget. simpl. by rewrite get_errors_count.
  - rewrite lookup_insert_ne, lookup_insert_eq by done.
    rewrite !Hget. simpl. by rewrite get_warnings_count.
Qed.
End statistics_properties.

Section time_span_properties.
Implicit Types lines : list LogLine.
Import LogHunter.

Lemma foldl_min_spec (l : list Z) (a : Z) :
  foldl Z.min a l ∈ a :: l ∧ ∀ x, x ∈ a :: l → foldl Z.min a l ≤ x.
Proof.
  revert a. induction l as [|y l IH]; intros a; simpl.
  { split; [by left|]. intros x ->%list_elem_of_singleton. lia. }
  destruct (IH (a `min` y)) as [Hin Hle]. split.
  - apply elem_of_cons in Hin as [->|Hin]; [|by do 2 right].
    destruct (Z.min_spec a y) as [[_ ->]|[_ ->]]; [by left|by right; left].
  - intros x Hx. pose proof (Hle (a `min` y) ltac:(by left)).
    apply elem_of_cons in Hx as [->|[->|Hx]%elem_of_cons]; [lia..|].
    apply Hle. by right.
Qed.

Lemma foldl_max_spec (l : list Z) (a : Z) :
  foldl Z.max a l ∈ a :: l ∧ ∀ x, x ∈ a :: l → x ≤ foldl Z.max a l.
Proof.
  revert a. induction l as [|y l IH]; intros a; simpl.
  { split; [by left|]. intros x ->%list_elem_of_singleton. lia. }
  destruct (IH (a `max` y)) as [Hin Hle]. split.
  - apply elem_of_cons in Hin as [->|Hin]; [|by do 2 right].
    destruct (Z.max_spec a y) as [[_ ->]|[_ ->]]; [by right; left|by left].
  - intros x Hx. pose proof (Hle (a `max` y) ltac:(by left)).
    apply elem_of_cons in Hx as [->|[->|Hx]%elem_of_cons]; [lia..|].
    apply Hle. by right.
Qed.

Lemma elem_of_timestamps lines t :
  t ∈ omap timestamp lines ↔ ∃ r, r ∈ lines ∧ timestamp r = Some t.
Proof. apply list_elem_of_omap. Qed.

(** C9: when at least one record has a timestamp, the snapshot has
    ['time_start'], the least timestamp of the store, ['time_end'], the
    greatest, and ['time_span'], their difference; when no record has a
    timestamp, the snapshot has none of the three keys. *)
Theorem statistics_time_fields lines :
  ((∃ r, r ∈ lines ∧ is_Some (timestamp r)) →
   ∃ lo hi,
     get_statistics lines !! "time_start" = Some (VDatetime lo) ∧
     get_statistics lines !! "time_end" = Some (VDatetime hi) ∧
     get_statistics lines !! "time_span" = Some (VTimedelta (hi - lo)) ∧
     (∃ r, r ∈ lines ∧ timestamp r = Some lo) ∧
     (∃ r, r ∈ lines ∧ timestamp r = Some hi) ∧
     (∀ r t, r ∈ lines → timestamp r = Some t → lo ≤ t ≤ hi)) ∧
  ((∀ r, r ∈ lines → timestamp r = None) →
   get_statistics lines !! "time_start" = None ∧
   get_statistics lines !! "time_end" = None ∧
   get_statistics lines !! "time_span" = None).
Proof.
  unfold get_statistics.
  destruct (omap timestamp lines) as [|t0 ts] eqn:Hts; split.
  - intros (r & Hr & [t Ht]).
    assert (t ∈ omap timestamp lines) as Hin by (apply elem_of_timestamps; eauto).
    rewrite Hts in Hin. by apply elem_of_nil in Hin.
  - intros _. by rewrite !lookup_insert_ne, lookup_empty.
  - intros _. unfold py_min, py_max, datetime_diff.
    destruct (foldl_min_spec ts t0) as [Hmin_in Hmin].
    destruct (foldl_max_spec ts t0) as [Hmax_in Hmax].
    exists (foldl Z.min t0 ts), (foldl Z.max t0 ts). split_and!.
    + by rewrite lookup_insert_ne, lookup_insert_ne, lookup_insert_eq.
    + by rewrite lookup_insert_ne, lookup_insert_eq.
    + by rewrite lookup_insert_eq.
    + apply elem_of_timestamps. by rewrite Hts.
    + apply elem_of_timestamps. by rewrite Hts.
    + intros r' t' Hr' Ht'.
      assert (t' ∈ omap timestamp lines) as Hin by (apply elem_of_timestamps; eauto).
      rewrite Hts in Hin. split; [by apply Hmin|by apply Hmax].
  - intros Hnone.
    assert (t0 ∈ omap timestamp lines) as Hin by (rewrite Hts; by left).
    apply elem_of_timestamps in Hin as (r & Hr & Ht).
    by rewrite (Hnone r Hr) in Ht.
Qed.

Lemma statistics_time_fields_witness :
  (∃ lo hi,
     get_statistics stamped_store !! "time_start" = Some (VDatetime lo) ∧
     get_statistics stamped_store !! "time_end" = Some (VDatetime hi) ∧
     get_statistics stamped_store !! "time_span" = Some (VTimedelta (hi - lo)) ∧
     (∃ r, r ∈ stamped_store ∧ timestamp r = Some lo) ∧
     (∃ r, r ∈ stamped_store ∧ timestamp r = Some hi) ∧
     (∀ r t, r ∈ stamped_store → timestamp r = Some t → lo ≤ t ≤ hi)) ∧
  (get_statistics trace_store !! "time_start" = None ∧
   get_statistics trace_store !! "time_end" = None ∧
   get_statistics trace_store !! "time_span" = None).
Proof.
  split.
  - apply (proj1 (statistics_time_fields stamped_store)).
    exists record_exception.
    split; [by apply (bool_decide_unpack _)|by eexists].
  - apply (proj2 (statistics_time_fields trace_store)).
    intros r Hr. unfold trace_store in Hr.
    repeat (apply elem_of_cons in Hr as [->|Hr]; [reflexivity|]).
    by apply elem_of_nil in Hr.
Defined.
End time_span_properties.

(** ** Strings *)

#[local] Arguments String.append _ _ : simpl nomatch.

Section strings.
Implicit Types s t u : string.

Lemma string_app_assoc s t u : (s +:+ t) +:+ u = s +:+ (t +:+ u).
Proof. induction s as [|c s IH]; simpl; [done|]. f_equal. apply IH. Qed.

Lemma string_app_nil_r s : s +:+ "" = s.
Proof. induction s as [|c s IH]; simpl; [done|]. f_equal. apply IH. Qed.

Lemma string_length_app s t :
  String.length (s +:+ t) = (String.length s + String.length t)%nat.
Proof. induction s as [|c s IH]; simpl; [done|]. f_equal. apply IH. Qed.

Lemma substring_0_length s : String.substring 0 (String.length s) s = s.
Proof. induction s as [|c s IH]; simpl; [done|]. f_equal. apply IH. Qed.

Lemma substring_0_app s t :
  String.substring 0 (String.length s) (s +:+ t) = s.
Proof.
  induction s as [|c s IH]; simpl; [by destruct t|]. f_equal. apply IH.
Qed.

Lemma consumed_app s t : consumed (s +:+ t) t = s.
Proof.
  unfold consumed. rewrite string_length_app.
  replace (_ + _ - _)%nat with (String.length s) by lia.
  apply substring_0_app.
Qed.
End strings.

(** ** Patterns of a fixed shape *)

Section shapes.
Implicit Types (cls : list (ascii → bool)) (s m : string).






End shapes.

(** ** [rstrip] *)

Section rstrip.
Variable chars : ascii → bool.
Implicit Types (cls : list (ascii → bool)) (s m : string).





End rstrip.

(** ** [LogLine.__init__] *)

Section construction.
Variable fromisoformat : string → result datetime.




Lemma _extract_timestamp_total text :
  ∃ ts, _extract_timestamp fromisoformat text = Ok ts.
Proof.
  unfold _extract_timestamp. destruct (re_search _ _); [|by eexists].
  destruct (fromisoformat _); simpl; by eexists.
Qed.



End construction.


(** The round trip of the specification, with the sample [fromisoformat]. *)
Example LogLine_init_sample :
  LogLine_init sample_fromisoformat "2026-01-10 10:00:00 ERROR Test" 1 "test.log"
  = Ok (mkLogLine "2026-01-10 10:00:00 ERROR Test" 1 "test.log"
          (Some (((739615 + 10) * 86400 + 10 * 3600) * us_per_second))
          (Some "ERROR")).
Proof. reflexivity. Qed.

(** A first match that is no calendar instant hides a later valid one. *)
Example LogLine_init_bad_first_match :
  ∃ r, LogLine_init sample_fromisoformat
         "2026-01-45 10:00:00 retry of 2026-01-10 10:00:00" 7 "test.log" = Ok r ∧
       timestamp r = None.
Proof. eexists. split; reflexivity. Qed.

(** ** Greedy repetition of a character class *)

Section repeat_class.
Context {R : Type} (ic : bool) (p : ascii → bool).
Implicit Types (K : @cont R) (s : string).

Lemma rmatch_repeat_nil lo prev g K :
  rmatch ic (Repeat lo None (Class p)) prev "" g K
  = if lo is O then K prev "" g else None.
Proof. reflexivity. Qed.

Lemma rmatch_repeat_cons lo prev c s g K :
  rmatch ic (Repeat lo None (Class p)) prev (String c s) g K
  = if p c then
      match rmatch ic (Repeat (pred lo) None (Class p)) (Some c) s g K with
      | Some x => Some x
      | None => if lo is O then K prev (String c s) g else None
      end
    else if lo is O then K prev (String c s) g else None.
Proof. simpl. destruct (p c); reflexivity. Qed.

(** When what follows cannot start with a character of the class, the
    repetition takes the whole run of such characters. *)
Lemma rmatch_repeat_span lo prev s g K :
  (∀ prev c s g, p c = true → K prev (String c s) g = None) →
  rmatch ic (Repeat lo None (Class p)) prev s g K
  = if bool_decide (lo ≤ String.length (span p s).1)%nat
    then K (last_char prev (span p s).1) (span p s).2 g
    else None.
Proof.
  intros HK. revert lo prev. induction s as [|c s IH]; intros lo prev.
  { rewrite rmatch_repeat_nil. simpl. by destruct lo. }
  rewrite rmatch_repeat_cons. simpl span. destruct (p c) eqn:Hc.
  - rewrite IH, (HK _ _ _ _ Hc). destruct (span p s) as [ds rest]. simpl.
    assert ((if lo is O then None else None) = @None R) as -> by by destruct lo.
    destruct (decide (lo ≤ S (String.length ds))%nat) as [Hlo|Hlo].
    + rewrite !bool_decide_eq_true_2 by lia. by destruct (K _ _ _).
    + by rewrite !bool_decide_eq_false_2 by lia.
  - simpl. by destruct lo.
Qed.
End repeat_class.

(** ** [parse_time_arg] *)

Section spans.
Variable p : ascii → bool.

Lemma span_app s : s = (span p s).1 +:+ (span p s).2.
Proof.
  induction s as [|c s IH]; simpl; [done|].
  destruct (p c); [|done]. destruct (span p s) as [ds rest]. simpl in *.
  by rewrite <-IH.
Qed.

Lemma span_all s : all_chars p (span p s).1.
Proof.
  induction s as [|c s IH]; simpl; [done|].
  destruct (p c) eqn:Hc; [|done]. destruct (span p s) as [ds rest]. simpl in *.
  by rewrite Hc.
Qed.

Lemma span_rest s c rest : (span p s).2 = String c rest → p c = false.
Proof.
  induction s as [|c' s IH]; simpl; [done|].
  destruct (p c') eqn:Hc'.
  - destruct (span p s) as [ds rest']. simpl in *. done.
  - simpl. by intros [= <- _].
Qed.

(** The run of class characters of [ds +:+ rest] is [ds] when [ds] is made
    of class characters and [rest] does not start with one. *)
Lemma span_unique ds rest :
  all_chars p ds → (if rest is String c _ then p c = false else True) →
  span p (ds +:+ rest) = (ds, rest).
Proof.
  intros Hds Hrest. induction ds as [|c ds IH]; simpl.
  - destruct rest as [|c rest]; [done|]. simpl. by rewrite Hrest.
  - simpl in Hds. apply andb_prop_elim in Hds as [Hc Hds].
    apply Is_true_true in Hc. rewrite Hc, IH by done. done.
Qed.
End spans.

Section matcher_equations.
Context {R : Type} (ic : bool).
Implicit Types (k : @cont R) (s : string).

Lemma rmatch_Cat r1 r2 prev s g k :
  rmatch ic (Cat r1 r2) prev s g k
  = rmatch ic r1 prev s g (λ prev' s' g', rmatch ic r2 prev' s' g' k).
Proof. reflexivity. Qed.

Lemma rmatch_Group i r prev s g k :
  rmatch ic (Group i r) prev s g k
  = rmatch ic r prev s g (λ prev' s' g', k prev' s' ((i, consumed s s') :: g')).
Proof. reflexivity. Qed.

Lemma rmatch_Bol prev s g k :
  rmatch ic Bol prev s g k = if prev is None then k prev s g else None.
Proof. reflexivity. Qed.
End matcher_equations.

Section relative_pattern.

Lemma unit_class c :
  bool_decide (c ∈ ["s"; "m"; "h"; "d"]%char) = is_unit c.
Proof.
  unfold is_unit.
  repeat match goal with
  | |- context [Ascii.eqb c ?x] =>
      destruct (Ascii.eqb_spec c x) as [->|]; [done|]
  end.
  apply bool_decide_eq_false_2.
  rewrite !elem_of_cons, elem_of_nil. tauto.
Qed.

Lemma is_digit_not_unit c : is_digit c = true → is_unit c = false.
Proof.
  intros Hc. unfold is_unit.
  repeat match goal with
  | |- context [Ascii.eqb c ?x] =>
      destruct (Ascii.eqb_spec c x) as [->|]; [done|]
  end.
  done.
Qed.

Lemma at_end_spec nl :
  at_end nl = bool_decide (nl = "" ∨ nl = String "010" "").
Proof.
  destruct nl as [|c [|c' nl]]; unfold at_end; symmetry.
  - apply bool_decide_eq_true_2. by left.
  - destruct (Ascii.eqb_spec c "010") as [->|Hc].
    + apply bool_decide_eq_true_2. by right.
    + apply bool_decide_eq_false_2. intros [?|[=]]; done.
  - apply bool_decide_eq_false_2. intros [?|?]; done.
Qed.

(** What [re.match(r'^(\d+)([smhd])$', text)] returns. *)
Lemma re_match_relative text :
  re_match relative_time text
  = match relative_parts text with
    | Some (ds, u) =>
        Some (mkMatch 0 (ds +:+ String u "") [(2%nat, String u ""); (1%nat, ds)])
    | None => None
    end.
Proof.
  unfold re_match, match_here, relative_time, relative_parts, plus.
  cbn [pat_re pat_ignorecase cat].
  rewrite rmatch_Cat, rmatch_Bol, rmatch_Cat, rmatch_Group.
  rewrite rmatch_repeat_span.
  2:{ intros prev c s g Hc. simpl. by rewrite unit_class, is_digit_not_unit. }
  pose proof (span_app is_digit text) as Htext.
  destruct (span is_digit text) as [ds rest]. simpl in Htext. simpl.
  destruct ds as [|d ds]; [done|]. rewrite bool_decide_eq_true_2 by (simpl; lia).
  destruct rest as [|u nl]; [done|].
  rewrite unit_class, at_end_spec.
  destruct (is_unit u); [|done]. simpl. case_bool_decide; [|done].
  f_equal. f_equal.
  - rewrite Htext.
    change (String u nl) with (String u "" +:+ nl).
    by rewrite <-string_app_assoc, consumed_app.
  - f_equal; [|f_equal]; f_equal.
    + change (String u nl) with (String u "" +:+ nl) at 1. apply consumed_app.
    + rewrite Htext at 1. apply consumed_app.
Qed.

Lemma int_of_digits_nonneg ds acc :
  all_chars is_digit ds → 0 ≤ acc → 0 ≤ int_of_digits acc ds.
Proof.
  revert acc. induction ds as [|c ds IH]; intros acc; simpl; [done|].
  intros [Hc Hds]%andb_prop_elim Hacc. apply IH; [done|].
  unfold is_digit, ascii_in in Hc.
  apply andb_prop_elim in Hc as [Hlo%Is_true_true%N.leb_le _].
  unfold digit_value. simpl in Hlo. lia.
Qed.

Lemma relative_parts_inv text ds u :
  relative_parts text = Some (ds, u) →
  all_chars is_digit ds ∧ ds ≠ "" ∧ is_unit u = true ∧
  ∃ nl, (nl = "" ∨ nl = String "010" "") ∧ text = ds +:+ String u nl.
Proof.
  unfold relative_parts. pose proof (span_app is_digit text) as Htext.
  pose proof (span_all is_digit text) as Hall.
  destruct (span is_digit text) as [ds' rest]. simpl in *.
  destruct ds' as [|d ds']; [done|]. destruct rest as [|u' nl]; [done|].
  destruct (is_unit u') eqn:Hu; [|done]. simpl. case_bool_decide; [|done].
  intros [= <- <-]. split_and!; [done..|]. by exists nl.
Qed.

(** The relative form, declaratively: digits, a unit letter, and nothing
    else but a possible final newline. *)
Lemma relative_parts_spec text ds u :
  relative_parts text = Some (ds, u) ↔
  all_chars is_digit ds ∧ ds ≠ "" ∧ is_unit u = true ∧
  ∃ nl, (nl = "" ∨ nl = String "010" "") ∧ text = ds +:+ String u nl.
Proof.
  split; [apply relative_parts_inv|].
  intros (Hds & Hne & Hu & nl & Hnl & ->). unfold relative_parts.
  rewrite span_unique; [|done|].
  2:{ destruct (is_digit u) eqn:Hd; [|done]. by rewrite is_digit_not_unit in Hu. }
  destruct ds; [done|]. rewrite Hu. simpl. by rewrite bool_decide_eq_true_2.
Qed.
End relative_pattern.

Section parse_time_arg_properties.
Variable now : datetime.
Variable fromisoformat : string → result instant.
Variable int_refuses : string → bool.
Hypothesis now_valid : dt_valid now.

Lemma relative_delta (value mult : Z) (d : result timedelta) :
  0 ≤ value → 0 < mult → mult ≤ us_per_day →
  d = (if (-999999999 <=? (value * mult) `div` us_per_day)
          && ((value * mult) `div` us_per_day <=? 999999999)
       then Ok (value * mult) else Raise OverflowError) →
  (d ≫= now_minus now)
  = if value * mult <=? now then Ok (Naive (now - value * mult))
    else Raise OverflowError.
Proof.
  intros Hv Hm Hm' ->. unfold dt_valid, dt_range, us_per_day, us_per_second in *.
  assert (0 ≤ value * mult) by nia.
  destruct (Z.leb_spec (value * mult) now) as [Hle|Hgt].
  - rewrite (proj2 (Z.leb_le _ _)), (proj2 (Z.leb_le _ _)).
    + simpl. unfold now_minus, datetime_sub, dt_range, us_per_day, us_per_second.
      rewrite (proj2 (Z.leb_le _ _)), (proj2 (Z.ltb_lt _ _)) by lia. done.
    + apply Z.div_le_upper_bound; lia.
    + etrans; [|apply Z.div_pos; lia]. done.
  - destruct (_ && _); simpl; [|done].
    unfold now_minus, datetime_sub. rewrite (proj2 (Z.leb_gt _ _)) by lia. done.
Qed.

Lemma parse_time_arg_relative text ds u :
  relative_parts text = Some (ds, u) →
  parse_time_arg now fromisoformat int_refuses text
  = if int_refuses ds
    then Raise (ValueError "Exceeds the limit for integer string conversion")
    else if int_of_digits 0 ds * unit_us u <=? now
    then Ok (Naive (now - int_of_digits 0 ds * unit_us u))
    else Raise OverflowError.
Proof.
  intros Hparts. unfold parse_time_arg. rewrite re_match_relative, Hparts.
  apply relative_parts_inv in Hparts as (Hds & _ & Hu & _).
  pose proof (int_of_digits_nonneg ds 0 Hds ltac:(done)) as Hvalue.
  unfold m_group. cbn [m_groups captured decide_rel decide]. simpl default.
  unfold py_int. destruct (int_refuses ds); [done|]. cbn [mbind result_bind].
  unfold is_unit in Hu.
  repeat match type of Hu with
  | context [Ascii.eqb u ?x] => destruct (Ascii.eqb_spec u x) as [->|]
  end; try done; cbn -[Z.mul Z.div Z.leb now_minus].
  all: apply relative_delta; [done|done|done|].
  all: unfold timedelta_new; cbv zeta.
  all: match goal with
       | |- (if (_ <=? ?a `div` _) && _ then _ else _) = (if (_ <=? ?b `div` _) && _ then _ else _) =>
           replace a with b by (unfold us_per_day, us_per_second; lia)
       end; reflexivity.
Qed.



(** A relative amount larger than [now] makes [now - timedelta(...)] leave
    the range of [datetime]: the call raises [OverflowError]. *)
Lemma parse_time_arg_out_of_range text ds u :
  relative_parts text = Some (ds, u) → int_refuses ds = false →
  now < int_of_digits 0 ds * unit_us u →
  parse_time_arg now fromisoformat int_refuses text = Raise OverflowError.
Proof.
  intros Hparts Hint Hlt. rewrite (parse_time_arg_relative _ _ _ Hparts), Hint.
  by rewrite (proj2 (Z.leb_gt _ _)).
Qed.
End parse_time_arg_properties.




(** ** Counters, continued: the items of [Counter(l)] *)

Section counter_items.
Implicit Types (l ks : list string) (k x : string).

Lemma keep_first_snoc l x :
  keep_first id (l ++ [x])
  = keep_first id l ++ (if decide (x ∈ l) then [] else [x]).
Proof.
  induction l as [|y l IH]; simpl.
  { destruct (decide (x ∈ [])) as [Hx|]; [by apply elem_of_nil in Hx|done]. }
  rewrite IH, filter_app. f_equal.
  destruct (decide (x ∈ l)) as [Hx|Hx], (decide (x ∈ y :: l)) as [Hx'|Hx']; try done.
  - exfalso. apply Hx'. by right.
  - apply elem_of_cons in Hx' as [->|?]; [|done].
    by rewrite filter_cons_False by (intros Hn; by apply Hn).
  - rewrite filter_cons_True; [done|]. simpl. intros ->. apply Hx'. by left.
Qed.

Lemma occurrences_snoc k l x :
  occurrences k (l ++ [x]) = occurrences k l + (if decide (x = k) then 1 else 0).
Proof.
  unfold occurrences. rewrite filter_app, length_app, filter_cons, filter_nil.
  case_decide; simpl; lia.
Qed.

Lemma occurrences_not_in k l : k ∉ l → occurrences k l = 0.
Proof.
  unfold occurrences. induction l as [|y l IH]; [done|].
  intros Hk. rewrite filter_cons_False.
  - apply IH. intros ?. apply Hk. by right.
  - intros ->. apply Hk. by left.
Qed.

Lemma occurrences_in k l : k ∈ l → 0 < occurrences k l.
Proof.
  unfold occurrences. induction l as [|y l IH]; [by intros ?%elem_of_nil|].
  rewrite filter_cons. intros [->|Hk]%elem_of_cons.
  - rewrite decide_True by done. simpl. lia.
  - case_decide; simpl; [lia|by apply IH].
Qed.

Lemma counter_incr_items (f : string → Z) ks x :
  NoDup ks →
  counter_incr x ((λ k, (k, f k)) <$> ks)
  = ((λ k, (k, f k + (if decide (x = k) then 1 else 0))) <$> ks)
    ++ (if decide (x ∈ ks) then [] else [(x, 1)]).
Proof.
  induction 1 as [|k ks Hk Hks IH]; [done|].
  rewrite !fmap_cons. cbn [counter_incr].
  destruct (decide (k = x)) as [->|Hkx].
  - rewrite decide_True by done. rewrite (decide_True (P := x ∈ x :: ks)) by by left.
    rewrite app_nil_r. f_equal. apply list_fmap_ext. intros _ k' Hk'%list_elem_of_lookup_2.
    rewrite decide_False; [by rewrite Z.add_0_r|]. by intros ->.
  - rewrite IH. rewrite (decide_False (P := x = k)) by done.
    rewrite Z.add_0_r. rewrite <-app_comm_cons. do 2 f_equal.
    destruct (decide (x ∈ ks)) as [Hx|Hx].
    + by rewrite decide_True by by right.
    + rewrite decide_False; [done|]. intros [?|?]%elem_of_cons; done.
Qed.

Lemma keep_first_id_NoDup l : NoDup (keep_first id l).
Proof. rewrite <-(list_fmap_id (keep_first id l)). apply keep_first_NoDup. Qed.

Lemma elem_of_keep_first l k : k ∈ keep_first id l ↔ k ∈ l.
Proof.
  split; [apply keep_first_subseteq|].
  induction l as [|y l IH]; simpl; [done|].
  intros [->|Hk]%elem_of_cons; [by left|].
  destruct (decide (k = y)) as [->|]; [by left|].
  right. apply list_elem_of_filter. split; [done|by apply IH].
Qed.

(** [Counter(l)] lists the distinct elements of [l] in the order of their
    first occurrences, each with its number of occurrences. *)
Lemma Counter_of_items l :
  Counter_of l = (λ k, (k, occurrences k l)) <$> keep_first id l.
Proof.
  unfold Counter_of. induction l as [|x l IH] using rev_ind; [done|].
  rewrite foldl_app. simpl. rewrite IH, counter_incr_items by apply keep_first_id_NoDup.
  rewrite keep_first_snoc, fmap_app. f_equal.
  - apply list_fmap_ext. intros _ k _. by rewrite occurrences_snoc.
  - rewrite (decide_ext _ _ _ _ (elem_of_keep_first l x)).
    case_decide as Hx; [done|]. simpl.
    by rewrite occurrences_snoc, occurrences_not_in, decide_True.
Qed.
End counter_items.

(** ** The stable descending sort *)

Section stable_sort.
Variable P : relation (string * Z).
Implicit Types (x y : string * Z) (l : list (string * Z)).

Lemma insert_desc_perm x l : insert_desc x l ≡ₚ x :: l.
Proof.
  induction l as [|y l IH]; simpl; [done|].
  destruct (y.2 <=? x.2); [done|]. rewrite IH. apply Permutation_swap.
Qed.

Lemma sorted_desc_perm l : sorted_desc l ≡ₚ l.
Proof.
  unfold sorted_desc. induction l as [|x l IH]; simpl; [done|].
  by rewrite insert_desc_perm, IH.
Qed.



End stable_sort.



(** ** The substitutions of [normalize] *)

Section bounded_repeat.
Context {R : Type} (ic : bool) (p : ascii → bool).
Implicit Types (K : @cont R) (s : string).







End bounded_repeat.

Section substitution.
Variable p : pattern.
Variable tok : token.
Variable repl : string.
(** The pattern matches at a position exactly when the token starts there,
    and consumes the token. *)
Hypothesis recognises : ∀ prev s, fst <$> match_here p prev s = snd <$> tok prev s.
Hypothesis token_split : ∀ prev s m rest, tok prev s = Some (m, rest) → s = m +:+ rest.



End substitution.

Section shape_tokens.
Implicit Types (cls : list (ascii → bool)) (s m : string).




End shape_tokens.

Section digit_runs.
Implicit Types (s ds rest : string).









End digit_runs.

Section tokens.
Import LogHunter.







End tokens.

(** ** [get_top_patterns] *)

Section top_patterns_properties.
Implicit Types lines : list LogLine.
Import LogHunter.

Lemma normalized_loop lines acc :
  foldl (λ normalized r, normalized ++ [normalize (line r)]) acc lines
  = acc ++ normalized_texts lines.
Proof.
  unfold normalized_texts. revert acc.
  induction lines as [|r lines IH]; intros acc; simpl.
  { by rewrite app_nil_r. }
  by rewrite IH, <-app_assoc.
Qed.

Lemma get_top_patterns_items lines n :
  get_top_patterns lines n
  = take (Z.to_nat n)
      (sorted_desc ((λ k, (k, occurrences k (normalized_texts lines)))
                    <$> keep_first id (normalized_texts lines))).
Proof.
  unfold get_top_patterns, most_common.
  by rewrite normalized_loop, Counter_of_items.
Qed.



Example get_top_patterns_sample :
  get_top_patterns pattern_store 2
  = [("[TIMESTAMP] ERROR Retry attempt [NUM] failed", 2);
     ("[TIMESTAMP] INFO Request from [IP]", 2)].
Proof. by vm_compute. Qed.

Example normalize_ip : normalize "Request from 192.168.1.100" = "Request from [IP]".
Proof. by vm_compute. Qed.

Example normalize_number : normalize "Retry attempt 1 failed" = "Retry attempt [NUM] failed".
Proof. by vm_compute. Qed.

Example normalize_order :
  normalize "02/Jan/2026:10:00:00 2026-01-10T10:00:00 up 10.0.0.1 in 35 ms"
  = "[TIMESTAMP] [TIMESTAMP] up [IP] in [NUM] ms".
Proof. by vm_compute. Qed.

(** The replacements of the specification on the same text, and on digits
    that stand next to letters or make too long a group. *)
Example normalize_as_specified_order :
  normalize_as_specified
    "02/Jan/2026:10:00:00 2026-01-10T10:00:00 up 10.0.0.1 in 35 ms"
  = "[TIMESTAMP] [TIMESTAMP] up [IP] in [NUM] ms".
Proof. by vm_compute. Qed.

Example normalize_as_specified_boundaries :
  normalize_as_specified "v2 x86 1234.1.1.1 7 1.2.3.4.5"
  = "v2 x86 [NUM].[NUM].[NUM].[NUM] [NUM] [IP].[NUM]".
Proof. by vm_compute. Qed.
End top_patterns_properties.

(** ** The sample stores are stores the loader produces *)

Example store3_loaded :
  LogHunter.load_file sample_fromisoformat []
    (Ok [sample_text 1 +:+ newline; sample_text 2 +:+ newline; sample_text 3 +:+ newline])
    "app.log"
  = store3.
Proof. by vm_compute. Qed.

Example stamped_store_loaded :
  LogHunter.load_file sample_fromisoformat [] (Ok error_log) "error.log"
  = stamped_store.
Proof. by vm_compute. Qed.

Example unreadable_file_loads_nothing :
  LogHunter.load_file sample_fromisoformat store3 (Raise OtherError) "missing.log"
  = store3.
Proof. reflexivity. Qed.

(** ** The assertions of [test_loghunter.py] on the first sample file *)

Section repository_tests.
Import LogHunter.

Example test_load_single_file : length app_log = 15%nat.
Proof. reflexivity. Qed.

Example test_timestamp_extraction :
  timestamp <$> head app_log 1 = [Some (sample_time 10 0 0)].
Proof. reflexivity. Qed.

Example test_log_level_extraction :
  _extract_level <$> ["2026-01-10 10:00:00 ERROR Test"; "2026-01-10 10:00:00 INFO Test";
                      "2026-01-10 10:00:00 WARN Test"; "2026-01-10 10:00:00 DEBUG Test"]
  = [Some "ERROR"; Some "INFO"; Some "WARN"; Some "DEBUG"].
Proof. by vm_compute. Qed.

Example test_filter_by_level :
  length (filter_by_level app_log ["ERROR"]) = 6%nat ∧
  length (filter_by_level app_log ["WARN"]) = 1%nat ∧
  length (filter_by_level app_log ["ERROR"; "WARN"]) = 7%nat.
Proof. by vm_compute. Qed.

Example test_filter_by_pattern :
  length (filter (λ r, matches_pattern r connection) app_log) = 2%nat.
Proof. by vm_compute. Qed.

Example test_get_errors_warnings :
  length (get_errors app_log) = 7%nat ∧ length (get_warnings app_log) = 1%nat.
Proof. by vm_compute. Qed.

Example test_statistics :
  get_statistics app_log !! "total_lines" = Some (VInt 15) ∧
  get_statistics app_log !! "files" = Some (VInt 1) ∧
  get_statistics app_log !! "errors" = Some (VInt 7) ∧
  get_statistics app_log !! "warnings" = Some (VInt 1) ∧
  get_statistics app_log !! "time_span" = Some (VTimedelta (902 * us_per_second)).
Proof. by vm_compute. Qed.

Example test_tail_head :
  line_num <$> tail app_log 5 = [11; 12; 13; 14; 15] ∧
  line_num <$> head app_log 5 = [1; 2; 3; 4; 5].
Proof. by vm_compute. Qed.

Example test_time_filtering :
  filter_by_time_range app_log (Some (Naive (sample_time 10 5 0))) None
  = Ok (drop 7 app_log).
Proof. by vm_compute. Qed.

Example test_parse_relative_time :
  parse_time_arg sample_now sample_fromisoformat_arg sample_int_refuses "1h"
  = Ok (Naive (sample_now - 3600 * us_per_second)) ∧
  parse_time_arg sample_now sample_fromisoformat_arg sample_int_refuses "2d"
  = Ok (Naive (sample_now - 172800 * us_per_second)).
Proof. by vm_compute. Qed.

Example test_pattern_analysis :
  get_top_patterns app_log 2
  = [("[TIMESTAMP] INFO Request from [IP]", 2);
     ("[TIMESTAMP] INFO Application started", 1)].
Proof. by vm_compute. Qed.

Example test_context :
  line_num <$> context app_log [4] 2 2 = [3; 4; 5; 6; 7].
Proof. by vm_compute. Qed.
End repository_tests.

(** * Further properties of the code *)

(** ** [head] and [tail] for every integer *)

Section head_tail_bounds.
Implicit Types lines : list LogLine.
Import LogHunter.

(** X1: for every store and every integer [n], negative ones included,
    [head(n)] is a prefix of the store and [tail(n)] a suffix of it; a
    negative [n] leaves out the last [-n] records from [head] and the first
    [-n] records from [tail]. *)
Theorem head_prefix_tail_suffix lines n :
  head lines n `prefix_of` lines ∧
  tail lines n `suffix_of` lines ∧
  Z.of_nat (length (head lines n))
  = (if n <? 0 then 0 `max` (Z.of_nat (length lines) + n)
     else n `min` Z.of_nat (length lines)) ∧
  Z.of_nat (length (tail lines n))
  = (if 0 <? n then n `min` Z.of_nat (length lines)
     else 0 `max` (Z.of_nat (length lines) + n)).
Proof.
  destruct (head_tail_take_drop lines n) as [Hhead Htail].
  rewrite Hhead, Htail. split_and!.
  - apply prefix_take.
  - apply suffix_drop.
  - rewrite length_take. destruct (Z.ltb_spec n 0); lia.
  - rewrite length_drop. destruct (Z.ltb_spec 0 n); lia.
Qed.
End head_tail_bounds.

(** ** What [LogLine.__init__] keeps of the raw line *)

Section stripped_line.
Variable fromisoformat : string → result datetime.

Lemma rstrip_rest_chars chars s :
  ∃ nl, s = rstrip chars s +:+ nl ∧ all_chars chars nl.
Proof.
  induction s as [|c s (nl & IH & Hnl)]; simpl; [by exists ""|].
  destruct (rstrip chars s) as [|c' s'] eqn:Hs.
  - simpl in IH. subst nl. destruct (chars c) eqn:Hc.
    + exists (String c s). simpl. by rewrite Hc.
    + by exists s.
  - exists nl. split; [|done]. rewrite IH at 1. done.
Qed.

Lemma rstrip_last chars s pre c :
  rstrip chars s = pre +:+ String c "" → chars c = false.
Proof.
  revert pre. induction s as [|a s IH]; intros pre; simpl.
  { by destruct pre. }
  destruct (rstrip chars s) as [|b r'] eqn:Hs.
  - destruct (chars a) eqn:Ha; [by destruct pre|].
    destruct pre as [|x pre]; simpl; [by intros [= <-]|].
    intros [= _ Hpre]. by destruct pre.
  - destruct pre as [|x pre]; simpl; [done|].
    intros [= _ Hpre]. by eapply IH.
Qed.

(** X2: the text of a constructed record is the raw line without its
    trailing newline and carriage-return characters and nothing else is
    removed: the raw line is the record's text followed only by such
    characters, and the record's text does not end with one. *)
Theorem LogLine_init_strips_only_newlines raw num path r :
  LogLine_init fromisoformat raw num path = Ok r →
  (∃ nl, raw = line r +:+ nl ∧ all_chars is_newline nl) ∧
  (∀ pre c, line r = pre +:+ String c "" → is_newline c = false).
Proof.
  unfold LogLine_init.
  destruct (_extract_timestamp_total fromisoformat (rstrip is_newline raw)) as [ts ->].
  simpl. intros [= <-]. simpl. split.
  - apply rstrip_rest_chars.
  - apply rstrip_last.
Qed.

End stripped_line.

Lemma LogLine_init_strips_only_newlines_witness :
  ∃ nl, "ERROR disk full" +:+ String "013" newline = "ERROR disk full" +:+ nl
        ∧ all_chars is_newline nl.
Proof.
  apply (LogLine_init_strips_only_newlines sample_fromisoformat
           ("ERROR disk full" +:+ String "013" newline) 1 "app.log"
           (mkLogLine "ERROR disk full" 1 "app.log" None (Some "ERROR"))).
  reflexivity.
Defined.

(** ** Loading *)

Section loading.
Variable fromisoformat : string → result datetime.
Implicit Types (lines recs : list LogLine) (raws : list string).
Import LogHunter.

Lemma LogLine_init_Ok raw num path :
  ∃ ts, LogLine_init fromisoformat raw num path
        = Ok (mkLogLine (rstrip is_newline raw) num path ts
                        (_extract_level (rstrip is_newline raw))).
Proof.
  unfold LogLine_init.
  destruct (_extract_timestamp_total fromisoformat (rstrip is_newline raw)) as [ts ->].
  by exists ts.
Qed.

Lemma load_lines_spec lines raws k path :
  ∃ recs,
    load_lines fromisoformat lines raws k path = lines ++ recs ∧
    line_num <$> recs = seqZ k (Z.of_nat (length raws)) ∧
    Forall (λ r, file_path r = path) recs ∧
    line <$> recs = rstrip is_newline <$> raws.
Proof.
  revert lines k. induction raws as [|raw raws IH]; intros lines k.
  { exists []. by rewrite app_nil_r. }
  cbn [load_lines]. destruct (LogLine_init_Ok raw k path) as [ts ->].
  destruct (IH (lines ++ [mkLogLine (rstrip is_newline raw) k path ts
                            (_extract_level (rstrip is_newline raw))]) (k + 1))
    as (recs & -> & Hnum & Hpath & Hline).
  eexists (_ :: recs). split_and!.
  - by rewrite <-app_assoc.
  - rewrite fmap_cons, Hnum. cbn [line_num].
    rewrite (seqZ_cons k) by (simpl; lia). do 2 f_equal; simpl; lia.
  - by constructor.
  - by rewrite !fmap_cons, Hline.
Qed.

(** X3: loading a readable file appends one record per line of the file,
    in order, after the records already in the store; the new records are
    numbered 1, 2, ..., count without gap, all carry the path of the file,
    and their texts are the lines without their trailing newlines.  A file
    that cannot be read leaves the store as it was. *)
Theorem load_file_numbering lines raws path e :
  (∃ recs,
     load_file fromisoformat lines (Ok raws) path = lines ++ recs ∧
     line_num <$> recs = seqZ 1 (Z.of_nat (length raws)) ∧
     Forall (λ r, file_path r = path) recs ∧
     line <$> recs = rstrip is_newline <$> raws) ∧
  load_file fromisoformat lines (Raise e) path = lines.
Proof. split; [apply load_lines_spec|done]. Qed.

Lemma load_lines_app lines raws k path :
  load_lines fromisoformat lines raws k path
  = lines ++ load_lines fromisoformat [] raws k path.
Proof.
  revert lines k. induction raws as [|raw raws IH]; intros lines k; cbn [load_lines].
  { by rewrite app_nil_r. }
  destruct (LogLine_init _ _ _ _) as [r|]; [|by rewrite app_nil_r].
  rewrite (IH (lines ++ [r])), (IH ([] ++ [r])). by rewrite <-app_assoc.
Qed.

Lemma load_file_app lines contents path :
  load_file fromisoformat lines contents path
  = lines ++ load_file fromisoformat [] contents path.
Proof.
  destruct contents as [raws|e]; simpl; [apply load_lines_app|by rewrite app_nil_r].
Qed.

Lemma load_file_keys contents path :
  NoDup (key <$> load_file fromisoformat [] contents path) ∧
  Forall (λ r, file_path r = path) (load_file fromisoformat [] contents path).
Proof.
  destruct contents as [raws|e]; simpl; [|split; constructor].
  destruct (load_lines_spec [] raws 1 path) as (recs & -> & Hnum & Hpath & _).
  simpl. split; [|done].
  apply (NoDup_fmap_1 snd). rewrite <-list_fmap_compose.
  change (snd ∘ key) with line_num. rewrite Hnum. apply NoDup_seqZ.
Qed.
End loading.

Section loading_files.
Variable fromisoformat : string → result datetime.
Variable glob : string → list string.
Variable read : string → result (list string).
Import LogHunter.

Lemma load_files_join lines pattern :
  load_files fromisoformat glob read lines pattern
  = lines ++ mjoin ((λ p, load_file fromisoformat [] (read p) p)
                    <$> merge_sort String.le (glob pattern)).
Proof.
  unfold load_files. destruct (glob pattern) as [|f fs] eqn:Hglob; simpl nonempty; cbv iota.
  { by rewrite app_nil_r. }
  generalize (merge_sort String.le (f :: fs)). intros ps. revert lines.
  induction ps as [|p ps IH]; intros lines; simpl.
  { by rewrite app_nil_r. }
  by rewrite IH, load_file_app, <-app_assoc.
Qed.

Lemma loaded_paths (ps : list string) r :
  r ∈ mjoin ((λ p, load_file fromisoformat [] (read p) p) <$> ps) →
  file_path r ∈ ps.
Proof.
  intros (recs & Hr & (p & -> & Hp)%list_elem_of_fmap)%list_elem_of_join.
  destruct (load_file_keys fromisoformat (read p) p) as [_ Hpath].
  by rewrite (proj1 (Forall_forall _ _) Hpath r Hr).
Qed.

(** X4: [load_files] appends to the store, for each path the pattern
    matches taken in sorted order, the records of that file alone; a file
    that cannot be read contributes nothing and does not stop the others.
    Loaded into an empty store, the records are grouped by file in the
    sorted order of the paths, and when the paths are pairwise distinct no
    two records have the same [(file_path, line_num)]. *)
Theorem load_files_sorted_unique lines pattern :
  load_files fromisoformat glob read lines pattern
  = lines ++ mjoin ((λ p, load_file fromisoformat [] (read p) p)
                    <$> merge_sort String.le (glob pattern)) ∧
  StronglySorted String.le
    (file_path <$> load_files fromisoformat glob read [] pattern) ∧
  (NoDup (glob pattern) →
   NoDup (key <$> load_files fromisoformat glob read [] pattern)).
Proof.
  split; [apply load_files_join|]. rewrite load_files_join. simpl.
  pose proof (StronglySorted_merge_sort String.le (glob pattern)) as Hsorted.
  pose proof (merge_sort_Permutation String.le (glob pattern)) as Hperm.
  revert Hsorted Hperm. generalize (merge_sort String.le (glob pattern)).
  intros ps Hsorted Hperm. split.
  - clear Hperm. induction Hsorted as [|p ps Hps IH Hle]; [constructor|].
    cbn [fmap list_fmap mjoin list_join]. rewrite fmap_app.
    apply StronglySorted_app_2; [|..|done].
    + intros x1 x2 (r1 & -> & Hr1)%list_elem_of_fmap (r2 & -> & Hr2)%list_elem_of_fmap.
      destruct (load_file_keys fromisoformat (read p) p) as [_ Hpath].
      rewrite (proj1 (Forall_forall _ _) Hpath r1 Hr1).
      apply loaded_paths in Hr2. by eapply Forall_forall in Hle.
    + destruct (load_file_keys fromisoformat (read p) p) as [_ Hpath].
      induction Hpath as [|r recs Hr Hrecs IHrecs]; [constructor|].
      rewrite fmap_cons. constructor; [done|].
      apply Forall_fmap, Forall_forall. intros r' Hr'. simpl.
      rewrite Hr, (proj1 (Forall_forall _ _) Hrecs r' Hr'). done.
  - rewrite <-Hperm. clear Hperm Hsorted. intros Hnd.
    induction Hnd as [|p ps Hp Hnd IH]; [constructor|].
    cbn [fmap list_fmap mjoin list_join]. rewrite fmap_app.
    apply NoDup_app. split_and!; [|  |done].
    + apply load_file_keys.
    + intros k (r1 & -> & Hr1)%list_elem_of_fmap (r2 & Hk & Hr2)%list_elem_of_fmap.
      destruct (load_file_keys fromisoformat (read p) p) as [_ Hpath].
      apply loaded_paths in Hr2. apply Hp.
      rewrite <-(proj1 (Forall_forall _ _) Hpath r1 Hr1).
      unfold key in Hk. by injection Hk as -> _.
Qed.
End loading_files.

Lemma load_files_sorted_unique_witness :
  NoDup (LogHunter.key <$> LogHunter.load_files sample_fromisoformat sample_glob
                             sample_read [] "*.log").
Proof.
  apply (load_files_sorted_unique sample_fromisoformat sample_glob sample_read [] "*.log").
  by apply (bool_decide_unpack _).
Defined.

Example load_files_sample :
  LogHunter.load_files sample_fromisoformat sample_glob sample_read [] "*.log"
  = store3 ++ stamped_store.
Proof. by vm_compute. Qed.

(** ** Words between word boundaries: [_extract_level], [get_exceptions] *)

Section first_some.
Context {A B : Type} (f : A → option B).

Lemma first_some_Some l y :
  first_some f l = Some y → ∃ x, x ∈ l ∧ f x = Some y.
Proof.
  induction l as [|x l IH]; simpl; [done|].
  destruct (f x) as [y'|] eqn:Hx.
  - intros [= <-]. exists x. split; [by left|done].
  - intros (x' & Hin & Hx')%IH. exists x'. split; [by right|done].
Qed.

Lemma first_some_None l x :
  first_some f l = None → x ∈ l → f x = None.
Proof.
  induction l as [|x' l IH]; simpl; [by intros _ ?%elem_of_nil|].
  destruct (f x') as [y'|] eqn:Hx; [done|].
  intros Hl [-> | Hin]%elem_of_cons; [done|by apply IH].
Qed.
End first_some.

Section word_matching.
Variable ignorecase : bool.

Lemma strip_word_spec w s m rest :
  strip_word ignorecase w s = Some (m, rest) ↔
  s = m +:+ rest ∧ same_word ignorecase w m.
Proof.
  revert s m rest. induction w as [|c w IH]; intros s m rest; simpl.
  - split.
    + by intros [= <- <-].
    + intros [-> Hm]. by destruct m.
  - destruct s as [|x s].
    { split; [done|]. intros [Hs Hm]. by destruct m. }
    destruct (lit_matches ignorecase c x) eqn:Hc.
    + split.
      * destruct (strip_word ignorecase w s) as [[m' rest']|] eqn:Hw; [|done].
        intros [= <- <-]. apply IH in Hw as [-> Hm']. simpl. by rewrite Hc.
      * intros [Hs Hm]. destruct m as [|x' m]; [done|].
        simpl in Hs. injection Hs as <- Hs.
        apply andb_prop_elim in Hm as [_ Hm].
        assert (strip_word ignorecase w s = Some (m, rest)) as ->; [|done].
        apply IH. by split.
    + split; [done|]. intros [Hs Hm]. destruct m as [|x' m]; [done|].
      simpl in Hs. injection Hs as <- Hs. by rewrite Hc in Hm.
Qed.

Lemma rmatch_lit {R} w prev s g (k : cont) :
  rmatch (R:=R) ignorecase (lit w) prev s g k
  = match strip_word ignorecase w s with
    | Some (m, rest) => k (last_char prev m) rest g
    | None => None
    end.
Proof.
  revert prev s. induction w as [|c w IH]; intros prev s; [done|].
  assert (rmatch (R:=R) ignorecase (lit (String c w)) prev s g k
          = match s with
            | String x s' =>
                if lit_matches ignorecase c x
                then rmatch ignorecase (lit w) (Some x) s' g k else None
            | EmptyString => None
            end) as ->.
  { destruct w; [done|]. done. }
  destruct s as [|x s]; [done|]. cbn [strip_word].
  destruct (lit_matches ignorecase c x); [|done].
  rewrite IH. by destruct (strip_word ignorecase w s) as [[m rest]|].
Qed.

Lemma rmatch_alt {R} rs prev s g (k : cont) :
  rs ≠ [] →
  rmatch (R:=R) ignorecase (alt rs) prev s g k
  = first_some (λ r, rmatch ignorecase r prev s g k) rs.
Proof.
  induction rs as [|r rs IH]; [done|]. intros _.
  destruct rs as [|r' rs].
  { simpl. by destruct (rmatch ignorecase r prev s g k). }
  change (alt (r :: r' :: rs)) with (Alt r (alt (r' :: rs))).
  cbn [rmatch first_some]. by rewrite IH.
Qed.

(** What one attempt of [\b(w1|...)\b] at a position gives: the first of the
    words, in the order of the alternation, that stands there between two
    word boundaries. *)
Lemma match_here_word_pattern ws prev s :
  ws ≠ [] →
  match_here (word_pattern ws ignorecase) prev s
  = if xorb (is_word_at prev) (is_word_at (string_head s))
    then first_some (λ w,
           match strip_word ignorecase w s with
           | Some (m, rest) =>
               if xorb (is_word_at (last_char prev m)) (is_word_at (string_head rest))
               then Some (rest, [(1%nat, consumed s rest)]) else None
           | None => None
           end) ws
    else None.
Proof.
  intros Hws. unfold match_here, word_pattern. simpl pat_re. simpl pat_ignorecase.
  change (cat [WordB; Group 1 (alt (lit <$> ws)); WordB])
    with (Cat WordB (Cat (Group 1 (alt (lit <$> ws))) WordB)).
  cbn [rmatch]. destruct (xorb _ _); [|done].
  rewrite rmatch_alt by (by destruct ws).
  clear Hws. induction ws as [|w ws IH]; [done|].
  rewrite fmap_cons. cbn [first_some]. rewrite rmatch_lit, IH.
  by destruct (strip_word ignorecase w s) as [[m rest]|].
Qed.

Lemma lower_char_word c : is_word (lower_char c) = is_word c.
Proof. by destruct c as [[] [] [] [] [] [] [] []]. Qed.

Lemma lit_matches_word c x :
  lit_matches ignorecase c x → is_word x = is_word c.
Proof.
  unfold lit_matches. destruct ignorecase.
  - intros Heq%Is_true_true%Ascii.eqb_eq.
    by rewrite <-(lower_char_word x), Heq, lower_char_word.
  - by intros ->%Is_true_true%Ascii.eqb_eq.
Qed.

Lemma same_word_chars w m :
  same_word ignorecase w m → all_chars is_word m = all_chars is_word w.
Proof.
  revert m. induction w as [|c w IH]; intros [|x m]; simpl; try done.
  intros [Hc Hm]%andb_prop_elim. by rewrite (lit_matches_word c x), (IH m).
Qed.

Lemma last_char_word prev m :
  m ≠ "" → all_chars is_word m → is_word_at (last_char prev m) = true.
Proof.
  revert prev. induction m as [|x m IH]; intros prev; [done|]. intros _.
  simpl. intros [Hx Hm]%andb_prop_elim. destruct m as [|y m].
  - simpl. by apply Is_true_true.
  - by apply IH.
Qed.

Lemma head_word m rest :
  m ≠ "" → all_chars is_word m → is_word_at (string_head (m +:+ rest)) = true.
Proof.
  destruct m as [|x m]; [done|]. intros _. simpl.
  intros [Hx _]%andb_prop_elim. by apply Is_true_true.
Qed.

Lemma same_word_nonempty w m : same_word ignorecase w m → w ≠ "" → m ≠ "".
Proof. by destruct w, m. Qed.

Variable ws : list string.
Hypothesis ws_nonempty : ws ≠ [].
Hypothesis ws_words : Forall (λ w, w ≠ "" ∧ all_chars is_word w) ws.

Lemma match_here_word_Some prev s rest g :
  match_here (word_pattern ws ignorecase) prev s = Some (rest, g) →
  ∃ w m, w ∈ ws ∧ s = m +:+ rest ∧ same_word ignorecase w m ∧
         m = consumed s rest ∧
         is_word_at prev = false ∧ is_word_at (string_head rest) = false.
Proof.
  rewrite match_here_word_pattern by done.
  destruct (xorb _ _) eqn:Hb; [|done].
  intros (w & Hw & Hm)%first_some_Some. exists w.
  destruct (strip_word ignorecase w s) as [[m rest']|] eqn:Hs; [|done].
  destruct (xorb (is_word_at (last_char prev m)) _) eqn:Hb'; [|done].
  injection Hm as -> _.
  apply strip_word_spec in Hs as [-> Hm].
  destruct (proj1 (Forall_forall _ _) ws_words w Hw) as [Hne Hchars].
  assert (m ≠ "") as Hne' by by eapply same_word_nonempty.
  assert (Is_true (all_chars is_word m)) as Hchars'.
  { by rewrite (same_word_chars w m). }
  rewrite head_word in Hb by done. rewrite last_char_word in Hb' by done.
  exists m. split_and!; [done..| | |].
  - by rewrite consumed_app.
  - by destruct (is_word_at prev).
  - by destruct (is_word_at (string_head rest)).
Qed.

Lemma match_here_word_None prev w m rest :
  match_here (word_pattern ws ignorecase) prev (m +:+ rest) = None →
  w ∈ ws → same_word ignorecase w m →
  is_word_at prev = false → is_word_at (string_head rest) = false → False.
Proof.
  rewrite match_here_word_pattern by done.
  intros Hnone Hw Hm Hprev Hrest.
  destruct (proj1 (Forall_forall _ _) ws_words w Hw) as [Hne Hchars].
  assert (m ≠ "") as Hne' by by eapply same_word_nonempty.
  assert (Is_true (all_chars is_word m)) as Hchars'.
  { by rewrite (same_word_chars w m). }
  rewrite head_word, Hprev in Hnone by done. simpl in Hnone.
  apply (first_some_None _ _ w) in Hnone; [|done]. cbv beta in Hnone.
  assert (strip_word ignorecase w (m +:+ rest) = Some (m, rest)) as Hs.
  { by apply strip_word_spec. }
  rewrite Hs, last_char_word, Hrest in Hnone by done. done.
Qed.
End word_matching.
Section searching.
Variable p : pattern.

(** [search] returns the match at the leftmost position that has one. *)
Lemma search_from_Some prev s i mo :
  search_from p prev s i = Some mo →
  ∃ pre t rest g,
    s = pre +:+ t ∧
    match_here p (last_char prev pre) t = Some (rest, g) ∧
    mo = mkMatch (i + String.length pre) (consumed t rest) g ∧
    ∀ pre' t', s = pre' +:+ t' → (String.length pre' < String.length pre)%nat →
               match_here p (last_char prev pre') t' = None.
Proof.
  revert prev i. induction s as [|c s IH]; intros prev i; simpl.
  - destruct (match_here p prev "") as [[rest g]|] eqn:Hm; [|done].
    intros [= <-]. exists "", "", rest, g. split_and!; [done..| |].
    + by rewrite Nat.add_0_r.
    + intros pre' t' _ Hlt. simpl in Hlt. lia.
  - destruct (match_here p prev (String c s)) as [[rest g]|] eqn:Hm.
    + intros [= <-]. exists "", (String c s), rest, g. split_and!; [done..| |].
      * by rewrite Nat.add_0_r.
      * intros pre' t' _ Hlt. simpl in Hlt. lia.
    + intros (pre & t & rest & g & -> & Ht & -> & Hleft)%IH.
      exists (String c pre), t, rest, g. split_and!; [done..| |].
      * simpl. f_equal. lia.
      * intros [|c' pre'] t' Hs Hlt; simpl in Hs.
        { by subst t'. }
        injection Hs as <- Hs. simpl. apply Hleft; [done|]. simpl in Hlt. lia.
Qed.

Lemma search_from_None prev s i pre t :
  search_from p prev s i = None → s = pre +:+ t →
  match_here p (last_char prev pre) t = None.
Proof.
  revert prev i pre. induction s as [|c s IH]; intros prev i pre; simpl.
  - destruct (match_here p prev "") as [[rest g]|] eqn:Hm; [done|].
    intros _ Hs. by destruct pre, t.
  - destruct (match_here p prev (String c s)) as [[rest g]|] eqn:Hm; [done|].
    intros Hnone Hs. destruct pre as [|c' pre]; simpl in Hs.
    { by subst t. }
    injection Hs as <- Hs. simpl. by eapply IH.
Qed.
End searching.

Section whole_words.
Variable ignorecase : bool.
Variable ws : list string.
Hypothesis ws_nonempty : ws ≠ [].
Hypothesis ws_words : Forall (λ w, w ≠ "" ∧ all_chars is_word w) ws.

(** The match [search] finds for [\b(w1|...)\b] is the leftmost whole-word
    occurrence of one of the words. *)
Lemma re_search_word_Some text mo :
  re_search (word_pattern ws ignorecase) text = Some mo →
  ∃ pre post,
    whole_word_at ignorecase ws text pre (m_group0 mo) post ∧
    ∀ pre' m' post', whole_word_at ignorecase ws text pre' m' post' →
                     (String.length pre ≤ String.length pre')%nat.
Proof.
  intros (pre & t & rest & g & -> & Ht & -> & Hleft)%search_from_Some.
  pose proof Ht as (w & m & Hw & -> & Hm & Hcons & Hprev & Hrest)%match_here_word_Some;
    [|done..].
  exists pre, rest. simpl. rewrite <-Hcons. split.
  - split_and!; [done| |done..]. by exists w.
  - intros pre' m' post' (Hs & (w' & Hw' & Hm') & Hprev' & Hrest').
    destruct (decide (String.length pre' < String.length pre)%nat) as [Hlt|]; [|lia].
    exfalso. specialize (Hleft pre' (m' +:+ post') Hs Hlt).
    by eapply match_here_word_None.
Qed.

Lemma re_search_word_None text pre m post :
  re_search (word_pattern ws ignorecase) text = None →
  ¬ whole_word_at ignorecase ws text pre m post.
Proof.
  intros Hnone (Hs & (w & Hw & Hm) & Hprev & Hrest).
  eapply search_from_None in Hnone; [|exact Hs].
  by eapply match_here_word_None.
Qed.
End whole_words.

Lemma same_word_exact w m : same_word false w m ↔ m = w.
Proof.
  revert m. induction w as [|c w IH]; intros [|x m]; simpl; try done.
  rewrite andb_True, IH. unfold lit_matches.
  rewrite Is_true_true, Ascii.eqb_eq. split; [by intros [-> ->]|by intros [= -> ->]].
Qed.

Lemma upper_lower_char c : upper_char (lower_char c) = upper_char c.
Proof. by destruct c as [[] [] [] [] [] [] [] []]. Qed.

Lemma same_word_upper w m : same_word true w m → upper m = upper w.
Proof.
  revert m. induction w as [|c w IH]; intros [|x m]; simpl; try done.
  intros [Hc%Is_true_true%Ascii.eqb_eq Hm]%andb_prop_elim.
  unfold upper in *. simpl. rewrite (IH m Hm). f_equal.
  by rewrite <-(upper_lower_char x), Hc, upper_lower_char.
Qed.

Lemma LOG_LEVELS_words : Forall (λ w, w ≠ "" ∧ Is_true (all_chars is_word w)) LOG_LEVELS.
Proof. repeat constructor; done. Qed.

Lemma LOG_LEVELS_upper w : w ∈ LOG_LEVELS → upper w = w.
Proof.
  unfold LOG_LEVELS. rewrite !elem_of_cons, elem_of_nil.
  intros H. repeat (destruct H as [-> | H]; [done|]). done.
Qed.

Lemma exception_words_words :
  Forall (λ w, w ≠ "" ∧ Is_true (all_chars is_word w)) exception_words.
Proof. repeat constructor; done. Qed.

Section record_level.
Variable fromisoformat : string → result datetime.

(** X5: for ASCII text, the level of a record is one of the eight names
    of [LOG_LEVELS], in capitals, or absent.  It is present exactly when the
    line contains one of these names, in any mix of upper and lower case, as
    a whole word (no letter, digit or underscore just before or after it);
    it is then the upper-case form of the leftmost such occurrence.  (Outside
    ASCII the case-insensitive matching of [re] also accepts letters such as
    the dotted capital I, whose upper-case form is not a level name.) *)
Theorem record_level_whole_word raw num path r :
  all_chars is_ascii raw →
  LogLine_init fromisoformat raw num path = Ok r →
  match level r with
  | Some lv =>
      lv ∈ LOG_LEVELS ∧
      ∃ pre m post,
        whole_word_at true LOG_LEVELS (line r) pre m post ∧ lv = upper m ∧
        ∀ pre' m' post', whole_word_at true LOG_LEVELS (line r) pre' m' post' →
                         (String.length pre ≤ String.length pre')%nat
  | None => ∀ pre m post, ¬ whole_word_at true LOG_LEVELS (line r) pre m post
  end.
Proof.
  intros _. unfold LogLine_init.
  destruct (_extract_timestamp fromisoformat (rstrip is_newline raw)) as [ts|]; [|done].
  intros [= <-]. simpl. generalize (rstrip is_newline raw). intros text.
  unfold _extract_level.
  change PATTERNS.log_level with (word_pattern LOG_LEVELS true).
  destruct (re_search (word_pattern LOG_LEVELS true) text) as [mo|] eqn:Hsearch.
  - apply re_search_word_Some in Hsearch as (pre & post & Hat & Hleft);
      [|done|exact LOG_LEVELS_words].
    pose proof Hat as (_ & (w & Hw & Hm) & _). split.
    + by rewrite (same_word_upper w _ Hm), LOG_LEVELS_upper.
    + by exists pre, (m_group0 mo), post.
  - intros pre m post. apply re_search_word_None; [done|exact LOG_LEVELS_words|done].
Qed.
End record_level.

Section exceptions.
Import LogHunter.

(** X6: for ASCII text, [get_exceptions] returns, in store order, exactly
    the records whose line contains [Exception], [Error] or [Traceback],
    written exactly so, as a whole word: with no letter, digit or underscore
    just before or after it.  A name such as [ValueError] therefore does not
    count. *)
Theorem get_exceptions_whole_words lines :
  Forall (λ r, all_chars is_ascii (line r)) lines →
  get_exceptions lines `sublist_of` lines ∧
  ∀ r, r ∈ get_exceptions lines ↔
       r ∈ lines ∧
       ∃ pre w post,
         line r = pre +:+ w +:+ post ∧ w ∈ exception_words ∧
         is_word_at (last_char None pre) = false ∧
         is_word_at (string_head post) = false.
Proof.
  intros _. split; [apply sublist_filter|].
  intros r. unfold get_exceptions. rewrite list_elem_of_filter.
  unfold matches_pattern. rewrite bool_decide_spec.
  change PATTERNS.exception with (word_pattern exception_words false).
  split.
  - intros [[mo Hsearch] Hr]. split; [done|].
    apply re_search_word_Some in Hsearch as (pre & post & Hat & _);
      [|done|exact exception_words_words].
    destruct Hat as (Hs & (w & Hw & Heq%same_word_exact) & Hprev & Hpost).
    rewrite Heq in Hs. by exists pre, w, post.
  - intros [Hr (pre & w & post & Hs & Hw & Hprev & Hpost)]. split; [|done].
    destruct (re_search (word_pattern exception_words false) (line r)) eqn:Hsearch;
      [done|].
    exfalso. eapply (re_search_word_None false exception_words);
      [done|exact exception_words_words|exact Hsearch|].
    split_and!; [exact Hs| |done..]. exists w. split; [done|]. by apply same_word_exact.
Qed.
End exceptions.

Lemma record_level_whole_word_witness :
  match level (sample_line 1) with
  | Some lv =>
      lv ∈ LOG_LEVELS ∧
      ∃ pre m post,
        whole_word_at true LOG_LEVELS (line (sample_line 1)) pre m post ∧ lv = upper m ∧
        ∀ pre' m' post',
          whole_word_at true LOG_LEVELS (line (sample_line 1)) pre' m' post' →
          (String.length pre ≤ String.length pre')%nat
  | None =>
      ∀ pre m post, ¬ whole_word_at true LOG_LEVELS (line (sample_line 1)) pre m post
  end.
Proof.
  apply (record_level_whole_word sample_fromisoformat (sample_text 1 +:+ newline) 1
           "app.log" (sample_line 1)); by vm_compute.
Defined.

Lemma get_exceptions_whole_words_witness :
  LogHunter.get_exceptions (record_error_word :: stamped_store)
    `sublist_of` record_error_word :: stamped_store ∧
  ∀ r, r ∈ LogHunter.get_exceptions (record_error_word :: stamped_store) ↔
       r ∈ record_error_word :: stamped_store ∧
       ∃ pre w post,
         line r = pre +:+ w +:+ post ∧ w ∈ exception_words ∧
         is_word_at (last_char None pre) = false ∧
         is_word_at (string_head post) = false.
Proof.
  apply (get_exceptions_whole_words (record_error_word :: stamped_store)).
  repeat constructor; by vm_compute.
Defined.

(** [NullPointerException] is not the word [Exception]. *)
Example get_exceptions_sample :
  LogHunter.get_exceptions (record_error_word :: stamped_store) = [record_error_word].
Proof. by vm_compute. Qed.

(** The level is the leftmost level name of the line, whatever its case. *)
Example _extract_level_sample :
  _extract_level "warning: no errors, Error count 0 [debug]" = Some "WARNING".
Proof. by vm_compute. Qed.

(** ** The [search] command with [--context] *)

Lemma filter_Forall_id {A} (P : A → Prop) `{∀ x, Decision (P x)} (l : list A) :
  Forall P l → filter P l = l.
Proof.
  induction 1 as [|x l Hx Hl IH]; [done|].
  by rewrite filter_cons_True, IH.
Qed.

Section keep_first_properties.
Context {A K : Type} `{EqDecision K} (f : A → K).

Lemma keep_first_app (l1 l2 : list A) :
  keep_first f (l1 ++ l2)
  = keep_first f l1 ++ filter (λ y, f y ∉ f <$> l1) (keep_first f l2).
Proof.
  induction l1 as [|x l1 IH].
  { simpl. symmetry. apply filter_all. intros y. apply not_elem_of_nil. }
  change ((x :: l1) ++ l2) with (x :: (l1 ++ l2)). cbn [keep_first].
  rewrite IH, filter_app, <-app_comm_cons. do 2 f_equal.
  rewrite list_filter_filter. apply list_filter_iff. intros y.
  rewrite fmap_cons, not_elem_of_cons. tauto.
Qed.

Lemma keep_first_NoDup_id (l : list A) :
  NoDup (f <$> l) → keep_first f l = l.
Proof.
  induction l as [|x l IH]; [done|]. rewrite fmap_cons.
  intros [Hx Hl]%NoDup_cons. simpl. rewrite IH by done. f_equal.
  apply filter_Forall_id, Forall_forall. intros y Hy Heq. apply Hx.
  rewrite <-Heq. by apply list_elem_of_fmap_2.
Qed.

Lemma keep_first_representative (l : list A) x :
  x ∈ l → ∃ y, y ∈ keep_first f l ∧ f y = f x.
Proof.
  induction l as [|z l IH]; [by intros ?%elem_of_nil|].
  intros [-> | Hx]%elem_of_cons; simpl.
  { exists z. split; [by left|done]. }
  destruct (decide (f x = f z)) as [Heq|Hne].
  { exists z. split; [by left|done]. }
  destruct (IH Hx) as (y & Hy & Hfy). exists y. split; [|done].
  right. apply list_elem_of_filter. split; [congruence|done].
Qed.

Lemma NoDup_fmap_eq (l : list A) x y :
  NoDup (f <$> l) → x ∈ l → y ∈ l → f x = f y → x = y.
Proof.
  induction l as [|z l IH]; [by intros _ ?%elem_of_nil|]. rewrite fmap_cons.
  intros [Hz Hl]%NoDup_cons [-> | Hx]%elem_of_cons [-> | Hy]%elem_of_cons Heq.
  - done.
  - exfalso. apply Hz. rewrite Heq. by apply list_elem_of_fmap_2.
  - exfalso. apply Hz. rewrite <-Heq. by apply list_elem_of_fmap_2.
  - by apply IH.
Qed.
End keep_first_properties.

Lemma sublist_app_not_in {A} (k l1 l2 : list A) :
  k `sublist_of` l1 ++ l2 → (∀ x, x ∈ k → x ∉ l1) → k `sublist_of` l2.
Proof.
  intros (k1 & k2 & -> & Hk1 & Hk2)%sublist_app_r Hnot.
  destruct k1 as [|x k1]; [done|].
  exfalso. apply (Hnot x); [by left|].
  eapply sublist_subseteq; [exact Hk1|by left].
Qed.

Section search_properties.
Implicit Types lines : list LogLine.
Import LogHunter.

Lemma index_lookup lines (i : nat) r :
  NoDup lines → lines !! i = Some r → index lines r = Ok (Z.of_nat i).
Proof.
  revert i. induction lines as [|y lines IH]; intros i; [done|].
  intros [Hy Hl]%NoDup_cons. destruct i as [|i]; simpl.
  - intros [= ->]. by rewrite decide_True.
  - intros Hi. rewrite decide_False.
    2:{ intros ->. apply Hy. by eapply list_elem_of_lookup_2. }
    rewrite (IH i) by done. simpl. f_equal. lia.
Qed.

(** The indices [main] computes for the matching records are their
    positions in the store, in increasing order. *)
Lemma mapM_index_filter (P : LogLine → Prop) `{∀ r, Decision (P r)} pre suf :
  NoDup (pre ++ suf) →
  ∃ indices,
    mapM (index (pre ++ suf)) (filter P suf) = Ok indices ∧
    Forall (λ idx, Z.of_nat (length pre) ≤ idx) indices ∧
    StronglySorted Z.le indices ∧
    ∀ idx, idx ∈ indices ↔
           ∃ q r, idx = Z.of_nat q ∧ (length pre ≤ q)%nat ∧
                  (pre ++ suf) !! q = Some r ∧ P r.
Proof.
  revert pre. induction suf as [|x suf IH]; intros pre Hnd.
  { exists []. split_and!; [done|constructor..|].
    intros idx. split; [by intros ?%elem_of_nil|].
    intros (q & r & _ & Hq & Hr%lookup_lt_Some & _).
    rewrite app_nil_r in Hr. lia. }
  destruct (IH (pre ++ [x])) as (indices & Hmap & Hge & Hsorted & Hin).
  { by rewrite <-app_assoc. }
  rewrite <-app_assoc in Hmap, Hin. simpl in Hmap, Hin.
  rewrite length_app in Hge, Hin. simpl in Hge, Hin.
  assert (∀ idx, (∃ q r, idx = Z.of_nat q ∧ (length pre ≤ q)%nat ∧
                         (pre ++ x :: suf) !! q = Some r ∧ P r) ↔
                 (P x ∧ idx = Z.of_nat (length pre)) ∨ idx ∈ indices) as Hiff.
  { intros idx. rewrite Hin. split.
    - intros (q & r & -> & Hq & Hr & HP).
      destruct (decide (q = length pre)) as [-> | Hne].
      + left. rewrite list_lookup_middle in Hr by done. by injection Hr as ->.
      + right. exists q, r. split_and!; [done|lia|done..].
    - intros [[HP ->] | (q & r & -> & Hq & Hr & HP)].
      + exists (length pre), x. split_and!; [done..| |done].
        by apply list_lookup_middle.
      + exists q, r. split_and!; [done|lia|done..]. }
  rewrite filter_cons. case_decide as HP.
  - exists (Z.of_nat (length pre) :: indices). split_and!.
    + cbn [mapM]. rewrite (index_lookup _ (length pre)); [|done|].
      2:{ by apply list_lookup_middle. }
      simpl. by rewrite Hmap.
    + constructor; [lia|]. eapply Forall_impl; [exact Hge|]. simpl. lia.
    + constructor; [done|]. eapply Forall_impl; [exact Hge|]. simpl. lia.
    + intros idx. rewrite Hiff, elem_of_cons. tauto.
  - exists indices. split_and!; [done| |done|].
    + eapply Forall_impl; [exact Hge|]. simpl. lia.
    + intros idx. rewrite Hiff. tauto.
Qed.

Lemma window_take_drop lines lo hi :
  0 ≤ hi + 1 →
  window lines lo hi
  = take (Z.to_nat (Z.of_nat (length lines) `min` (hi + 1) - 0 `max` lo))
         (drop (Z.to_nat (0 `max` lo)) lines).
Proof.
  intros Hhi. unfold window. rewrite filter_seqZ_range, omap_lookup_seqZ by lia.
  do 2 f_equal; lia.
Qed.

Lemma elem_of_window lines lo hi r :
  r ∈ window lines lo hi ↔
  ∃ p, lines !! p = Some r ∧ lo ≤ Z.of_nat p ≤ hi.
Proof.
  unfold window. rewrite list_elem_of_omap. split.
  - intros (p & [Hp Hrange%elem_of_seqZ]%list_elem_of_filter & Hr).
    exists (Z.to_nat p). split; [done|lia].
  - intros (p & Hr & Hp). exists (Z.of_nat p). split.
    + apply list_elem_of_filter. split; [done|]. apply elem_of_seqZ.
      apply lookup_lt_Some in Hr. lia.
    + by rewrite Nat2Z.id.
Qed.

(** Windows around increasing indices, concatenated and de-duplicated, come
    out in store order. *)
Lemma keep_first_windows_sublist lines indices c b :
  NoDup (key <$> lines) → 0 ≤ c →
  StronglySorted Z.le indices → Forall (λ idx, b ≤ idx) indices → 0 ≤ b →
  keep_first key (mjoin ((λ idx, window lines (idx - c) (idx + c)) <$> indices))
    `sublist_of` drop (Z.to_nat (0 `max` (b - c))) lines.
Proof.
  intros Hnd Hc Hsorted. revert b.
  induction Hsorted as [|idx indices Hsorted IH Hle]; intros b Hb Hb0.
  { apply sublist_nil_l. }
  apply Forall_cons in Hb as [Hidx Hb].
  cbn [fmap list_fmap mjoin list_join]. rewrite keep_first_app.
  specialize (IH idx Hle ltac:(lia)).
  set (lo := Z.to_nat (0 `max` (idx - c))) in *.
  transitivity (drop lo lines).
  2:{ replace lo with (Z.to_nat (0 `max` (b - c))
                       + (lo - Z.to_nat (0 `max` (b - c))))%nat by lia.
      rewrite <-drop_drop. apply sublist_drop. }
  rewrite window_take_drop by lia. fold lo.
  set (k := Z.to_nat (_ - _)).
  assert (take k (drop lo lines) ++ drop k (drop lo lines) = drop lo lines)
    as Hsplit by apply take_drop.
  revert Hsplit. generalize (drop k (drop lo lines)).
  assert (NoDup (key <$> take k (drop lo lines))) as Hw.
  { eapply sublist_NoDup; [exact Hnd|].
    apply fmap_sublist. etrans; [apply sublist_take|apply sublist_drop]. }
  revert Hw. generalize (take k (drop lo lines)). intros w Hw rest Hsplit.
  rewrite keep_first_NoDup_id, <-Hsplit by done.
  apply sublist_app; [done|].
  apply (sublist_app_not_in _ w).
  - rewrite Hsplit. etrans; [apply sublist_filter|exact IH].
  - intros r [Hr _]%list_elem_of_filter Hin. apply Hr.
    by apply list_elem_of_fmap_2.
Qed.

Section search_command.
Variable compile : string → bool → result pattern.

(** X7: the [search] command with a positive [--context], on a store whose
    records have pairwise distinct [(file_path, line_num)], yields the
    records that lie within [context] positions of a record matching the
    pattern, and only those, each once and in store order. *)
Theorem search_with_context lines pattern ignore_case c regex :
  NoDup (key <$> lines) →
  compile pattern ignore_case = Ok regex →
  0 < c →
  ∃ results,
    search_results compile lines pattern ignore_case c = Ok results ∧
    results `sublist_of` lines ∧
    ∀ r, r ∈ results ↔
         ∃ p q m, lines !! p = Some r ∧ lines !! q = Some m ∧
                  matches_pattern m regex ∧
                  Z.of_nat q - c ≤ Z.of_nat p ≤ Z.of_nat q + c.
Proof.
  intros Hnd Hcompile Hc. unfold search_results, filter_by_pattern.
  rewrite negb_involutive, Hcompile. simpl.
  destruct (Z.ltb_spec 0 c) as [_|]; [|lia].
  destruct (mapM_index_filter (λ r, matches_pattern r regex) [] lines)
    as (indices & Hmap & Hge & Hsorted & Hin).
  { simpl. by eapply NoDup_fmap_1. }
  simpl in Hmap, Hge, Hin. rewrite Hmap. simpl.
  eexists. split; [done|].
  rewrite context_keep_first, context_extend_windows.
  2:{ eapply Forall_impl; [exact Hge|]. simpl. lia. }
  simpl. split.
  - pose proof (keep_first_windows_sublist lines indices c 0 Hnd ltac:(lia)
                  Hsorted Hge ltac:(lia)) as Hsub.
    by replace (Z.to_nat (0 `max` (0 - c))) with 0%nat in Hsub by lia.
  - intros r. split.
    + intros Hr%keep_first_subseteq.
      apply list_elem_of_join in Hr as (w & Hr & (idx & -> & Hidx)%list_elem_of_fmap).
      apply elem_of_window in Hr as (p & Hp & Hrange).
      apply Hin in Hidx as (q & m & -> & _ & Hq & Hm).
      exists p, q, m. split_and!; [done..|lia|lia].
    + intros (p & q & m & Hp & Hq & Hm & Hrange).
      assert (r ∈ mjoin ((λ idx, window lines (idx - c) (idx + c)) <$> indices))
        as Hr.
      { apply list_elem_of_join. exists (window lines (Z.of_nat q - c) (Z.of_nat q + c)).
        split.
        - apply elem_of_window. by exists p.
        - apply (list_elem_of_fmap_2 (λ idx, window lines (idx - c) (idx + c))).
          apply Hin. exists q, m. split_and!; [done|lia|done..]. }
      destruct (keep_first_representative key _ r Hr) as (r' & Hr' & Hkey).
      assert (r' = r) as <-; [|done].
      apply (NoDup_fmap_eq key lines); [done| | |done].
      * apply keep_first_subseteq, list_elem_of_join in Hr'
          as (w & Hr' & (idx & -> & Hidx)%list_elem_of_fmap).
        apply elem_of_window in Hr' as (p' & Hp' & _).
        by eapply list_elem_of_lookup_2.
      * by eapply list_elem_of_lookup_2.
Qed.
End search_command.
End search_properties.

Lemma search_with_context_witness :
  ∃ results,
    search_results sample_compile app_log "Connection" true 1 = Ok results ∧
    results `sublist_of` app_log ∧
    ∀ r, r ∈ results ↔
         ∃ p q m, app_log !! p = Some r ∧ app_log !! q = Some m ∧
                  matches_pattern m connection ∧
                  Z.of_nat q - 1 ≤ Z.of_nat p ≤ Z.of_nat q + 1.
Proof.
  apply (search_with_context sample_compile app_log "Connection" true 1 connection).
  - by apply (bool_decide_unpack _).
  - reflexivity.
  - lia.
Defined.

(** Two matches one record apart: their windows overlap, and the records
    between come once. *)
Example search_with_context_sample :
  line_num <$> default [] (match search_results sample_compile app_log "Connection" true 1
                           with Ok l => Some l | Raise _ => None end)
  = [4; 5; 6; 7; 8].
Proof. by vm_compute. Qed.

(** ** The totals of [get_statistics] *)

Section statistics_totals.
Implicit Types lines : list LogLine.
Import LogHunter.

Lemma size_list_to_set_remove_dups (l : list string) :
  size (list_to_set l : gset string) = length (remove_dups l).
Proof.
  rewrite <-(size_list_to_set (C:=gset string) (remove_dups l))
    by apply NoDup_remove_dups.
  f_equal. apply set_eq. intros x.
  by rewrite !elem_of_list_to_set, elem_of_remove_dups.
Qed.

Lemma length_remove_dups (l : list string) :
  (length (remove_dups l) ≤ length l)%nat ∧ (l ≠ [] → 1 ≤ length (remove_dups l))%nat.
Proof.
  split.
  - induction l as [|x l IH]; [done|]. simpl. case_decide; simpl; lia.
  - destruct l as [|x l]; [done|]. intros _.
    assert (x ∈ remove_dups (x :: l)) as Hx by (apply elem_of_remove_dups; by left).
    destruct (remove_dups (x :: l)); [by apply elem_of_nil in Hx|simpl; lia].
Qed.

Lemma length_filter_exclusive {A} (P Q : A → Prop)
    `{∀ x, Decision (P x)} `{∀ x, Decision (Q x)} (l : list A) :
  (∀ x, P x → Q x → False) →
  (length (filter P l) + length (filter Q l) ≤ length l)%nat.
Proof.
  intros Hex. induction l as [|x l IH]; [done|].
  rewrite !filter_cons. destruct (decide (P x)), (decide (Q x)); simpl; try lia.
  exfalso. by eapply Hex.
Qed.

(** X8: in the statistics of a store, [total_lines] is the number of
    records, [files] the number of distinct paths among them and
    [exceptions] the number of records [get_exceptions] returns.  No record
    counts both as an error and as a warning, so [errors] and [warnings]
    together do not exceed [total_lines]; neither does [files], which is at
    least 1 when the store is not empty. *)
Theorem statistics_totals lines :
  ∃ total files errors warnings exceptions : nat,
    get_statistics lines !! "total_lines" = Some (VInt (Z.of_nat total)) ∧
    get_statistics lines !! "files" = Some (VInt (Z.of_nat files)) ∧
    get_statistics lines !! "errors" = Some (VInt (Z.of_nat errors)) ∧
    get_statistics lines !! "warnings" = Some (VInt (Z.of_nat warnings)) ∧
    get_statistics lines !! "exceptions" = Some (VInt (Z.of_nat exceptions)) ∧
    total = length lines ∧
    files = length (remove_dups (file_path <$> lines)) ∧
    exceptions = length (get_exceptions lines) ∧
    (errors + warnings ≤ total)%nat ∧
    (exceptions ≤ total)%nat ∧
    (files ≤ total)%nat ∧
    (lines ≠ [] → 1 ≤ files)%nat.
Proof.
  exists (length lines), (length (remove_dups (file_path <$> lines))),
    (length (get_errors lines)), (length (get_warnings lines)),
    (length (get_exceptions lines)).
  rewrite !get_statistics_lookup by done.
  rewrite size_list_to_set_remove_dups.
  destruct (length_remove_dups (file_path <$> lines)) as [Hle Hge].
  rewrite length_fmap in Hle.
  split_and!; try done.
  - apply length_filter_exclusive. intros r.
    rewrite !matches_level_spec.
    intros (lv & Hlv & _ & Hin) (lv' & Hlv' & _ & Hin').
    rewrite Hlv in Hlv'. injection Hlv' as <-.
    revert Hin Hin'. simpl. rewrite !elem_of_cons, !elem_of_nil.
    intros [-> | [-> | [-> | []]]] [? | [? | []]]; discriminate.
  - apply length_filter.
  - intros Hne. apply Hge. by destruct lines.
Qed.
End statistics_totals.
(** ** Composing time ranges *)

Section time_range_composition.
Implicit Types lines : list LogLine.
Import LogHunter.

Lemma filter_none {A} (P : A → Prop) `{∀ x, Decision (P x)} (l : list A) :
  (∀ x, ¬ P x) → filter P l = [].
Proof.
  intros HP. induction l as [|x l IH]; [done|].
  by rewrite filter_cons_False.
Qed.

(** X9: for bounds without UTC offset, filtering the result of a
    time-range filter by a second range is filtering the store by the
    intersection of the two ranges (the later start, the earlier end), so
    two filters can be applied in either order and a filter applied twice
    changes nothing more; a range that ends before it starts selects
    nothing; and with no bound at all the filter still drops the records
    that have no timestamp. *)
Theorem filter_by_time_range_compose lines (s1 e1 s2 e2 : option datetime) :
  let range start end_ l :=
    filter_by_time_range l (Naive <$> start) (Naive <$> end_) in
  (range s1 e1 lines ≫= range s2 e2)
  = range (later_start s1 s2) (earlier_end e1 e2) lines ∧
  (range s1 e1 lines ≫= range s2 e2) = (range s2 e2 lines ≫= range s1 e1) ∧
  (range s1 e1 lines ≫= range s1 e1) = range s1 e1 lines ∧
  (∀ s e, e < s → range (Some s) (Some e) lines = Ok []) ∧
  range None None lines = Ok (filter (λ r, is_Some (timestamp r)) lines).
Proof.
  intros range. unfold range. rewrite !filter_by_time_range_naive. simpl.
  rewrite !filter_by_time_range_naive, !list_filter_filter. split_and!.
  - f_equal. apply list_filter_iff. intros r. unfold in_time_range.
    destruct (timestamp r), s1, e1, s2, e2; simpl; lia.
  - f_equal. apply list_filter_iff. intros r. tauto.
  - f_equal. apply list_filter_iff. intros r. tauto.
  - intros s e Hlt. rewrite (filter_by_time_range_naive _ (Some s) (Some e)).
    f_equal. apply filter_none.
    intros r. unfold in_time_range. destruct (timestamp r); simpl; lia.
  - f_equal. apply list_filter_iff. intros r. unfold in_time_range.
    destruct (timestamp r); simpl; [|by rewrite is_Some_alt].
    split; [by eexists|done].
Qed.
End time_range_composition.
(** ** [print_lines] and its limit *)

Section print_lines_properties.
Variable Path_name : string → string.
Variable str_int : Z → string.
Variable highlight_sub : pattern → string → string.
Implicit Types lines : list LogLine.

(** X10: what [print_lines] prints for a store that is not empty.  Without
    a limit, or with the limit 0, one text per record.  With a positive
    limit [n], the texts of the first [n] records and, when there are more,
    a last line announcing the [size - n] records left out: what is shown
    and what is announced add up to all.  With a negative limit [n], all
    records but the last [-n] are shown, and the last line always comes,
    announcing [size - n] records: more than there are. *)
Theorem print_lines_limit lines limit highlight :
  lines ≠ [] →
  let size := Z.of_nat (length lines) in
  let text := print_line Path_name str_int highlight_sub highlight in
  print_lines Path_name str_int highlight_sub lines limit highlight
  = match limit with
    | None => text <$> lines
    | Some n =>
        if decide (n = 0) then text <$> lines
        else if decide (size ≤ n) then text <$> lines
        else if decide (0 < n)
        then (text <$> take (Z.to_nat n) lines) ++ [more_results str_int (size - n)]
        else (text <$> take (length lines - Z.to_nat (- n)) lines)
             ++ [more_results str_int (size - n)]
    end.
Proof.
  intros Hne size text. unfold print_lines.
  destruct lines as [|r lines]; [done|]. cbn [nonempty negb].
  destruct limit as [n|]; [|done].
  destruct (Z.eqb_spec n 0) as [-> | Hn]; cbn [negb andb].
  { by rewrite decide_True. }
  rewrite decide_False by done.
  destruct (Z.ltb_spec n (Z.of_nat (length (r :: lines)))) as [Hlt|Hge].
  - rewrite decide_False by (unfold size; lia). case_decide.
    + by rewrite py_slice_prefix by lia.
    + by rewrite py_slice_prefix_neg by lia.
  - rewrite decide_True by (unfold size; lia).
    rewrite py_slice_prefix by lia. by rewrite take_ge by lia.
Qed.
End print_lines_properties.

Lemma print_lines_limit_witness :
  print_lines id sample_str_int (λ _ s, s) app_log (Some 2) None
  = (print_line id sample_str_int (λ _ s, s) None <$> take 2 app_log)
    ++ [more_results sample_str_int 13].
Proof.
  apply (print_lines_limit id sample_str_int (λ _ s, s) app_log (Some 2) None).
  discriminate.
Defined.

(** With [--limit -2] thirteen of the fifteen records are shown, and
    seventeen more are announced. *)
Example print_lines_negative_limit :
  print_lines id sample_str_int (λ _ s, s) app_log (Some (-2)) None
  = (print_line id sample_str_int (λ _ s, s) None <$> take 13 app_log)
    ++ [more_results sample_str_int 17].
Proof. by vm_compute. Qed.

(** ** The [time] command *)

Section time_command_properties.
Variable now : datetime.
Variable fromisoformat : string → result instant.
Variable int_refuses : string → bool.
Hypothesis now_valid : dt_valid now.
Implicit Types lines : list LogLine.

End time_command_properties.


(** ** [normalize] on text without digits *)

Section digit_free.
Import LogHunter.

(** A pattern that cannot match where the subject does not begin with a
    digit matches nowhere in a text without digits, and [sub] then returns
    the text unchanged. *)
Lemma sub_from_digit_free p repl prev s :
  (∀ prev' c t, is_digit c = false → match_here p prev' (String c t) = None) →
  all_chars no_digit s → sub_from p repl prev s 0 = s.
Proof.
  intros Hp. revert prev. induction s as [|c s IH]; intros prev; [done|].
  cbn [all_chars]. intros [Hc%negb_prop_elim%Is_true_false Hs]%andb_prop_elim.
  cbn [sub_from]. rewrite (Hp prev c s Hc). f_equal. by apply IH.
Qed.

Lemma timestamp_iso_digit prev c t :
  is_digit c = false → match_here PATTERNS.timestamp_iso prev (String c t) = None.
Proof. intros Hc. unfold match_here. cbn. by rewrite Hc. Qed.

Lemma timestamp_common_digit prev c t :
  is_digit c = false → match_here PATTERNS.timestamp_common prev (String c t) = None.
Proof. intros Hc. unfold match_here. cbn. by rewrite Hc. Qed.

Lemma ip_address_digit prev c t :
  is_digit c = false → match_here PATTERNS.ip_address prev (String c t) = None.
Proof.
  intros Hc. unfold match_here. cbn.
  destruct (xorb _ _); [|done]. by rewrite Hc.
Qed.

Lemma number_digit prev c t :
  is_digit c = false → match_here number prev (String c t) = None.
Proof.
  intros Hc. unfold match_here. cbn.
  destruct (xorb _ _); [|done]. by rewrite Hc.
Qed.

(** X12: [get_top_patterns] counts an ASCII line that contains no digit
    under its own text: none of the four substitutions of [normalize]
    changes it.  (Outside ASCII there are further decimal digits, which the
    [\d] of [re] matches.) *)
Theorem normalize_digit_free text :
  all_chars is_ascii text → all_chars no_digit text → normalize text = text.
Proof.
  intros _ Htext. unfold normalize, re_sub.
  rewrite (sub_from_digit_free PATTERNS.timestamp_iso) by
    (done || apply timestamp_iso_digit).
  rewrite (sub_from_digit_free PATTERNS.timestamp_common) by
    (done || apply timestamp_common_digit).
  rewrite (sub_from_digit_free PATTERNS.ip_address) by
    (done || apply ip_address_digit).
  by rewrite (sub_from_digit_free number) by (done || apply number_digit).
Qed.
End digit_free.

Lemma normalize_digit_free_witness :
  LogHunter.normalize "ERROR Connection to database failed"
  = "ERROR Connection to database failed".
Proof.
  apply (normalize_digit_free "ERROR Connection to database failed");
    by vm_compute.
Defined.
(** ** The counts of [get_top_patterns] *)

Section count_totals.
Import LogHunter.

Lemma sum_counts_app l1 l2 :
  sum_counts (l1 ++ l2) = sum_counts l1 + sum_counts l2.
Proof. unfold sum_counts. induction l1 as [|x l1 IH]; simpl; lia. Qed.

Lemma sum_counts_perm l1 l2 : l1 ≡ₚ l2 → sum_counts l1 = sum_counts l2.
Proof. unfold sum_counts. induction 1; simpl; lia. Qed.

Lemma sum_counts_nonneg l : Forall (λ x, 0 ≤ x.2) l → 0 ≤ sum_counts l.
Proof. unfold sum_counts. induction 1; simpl; lia. Qed.

Lemma sum_counts_take n l :
  Forall (λ x, 0 ≤ x.2) l → sum_counts (take n l) ≤ sum_counts l.
Proof.
  intros Hl. rewrite <-(take_drop n l) at 2. rewrite sum_counts_app.
  assert (Forall (λ x, 0 ≤ x.2) (drop n l)) as Hdrop.
  { by apply Forall_drop. }
  pose proof (sum_counts_nonneg (drop n l) Hdrop). lia.
Qed.

Lemma sum_counts_split (g : string → Z) (ks : list string) x :
  NoDup ks →
  sum_counts ((λ k, (k, g k)) <$> ks)
  = (if decide (x ∈ ks) then g x else 0)
    + sum_counts ((λ k, (k, g k)) <$> filter (λ k, k ≠ x) ks).
Proof.
  induction 1 as [|k ks Hk Hks IH]; [done|].
  rewrite fmap_cons, filter_cons. unfold sum_counts in *. cbn [foldr snd].
  rewrite IH. destruct (decide (k ≠ x)) as [Hne|Heq%dec_stable].
  - rewrite fmap_cons. cbn [foldr snd].
    destruct (decide (x ∈ ks)) as [Hin|Hnin].
    + rewrite decide_True by by right. lia.
    + rewrite decide_False; [lia|]. intros [-> | ?]%elem_of_cons; done.
  - subst k. rewrite (decide_True (P:=x ∈ x :: ks)) by by left.
    rewrite (decide_False (P:=x ∈ ks)) by done. lia.
Qed.

Lemma sum_counts_occurrences (l : list string) :
  sum_counts ((λ k, (k, occurrences k l)) <$> keep_first id l)
  = Z.of_nat (length l).
Proof.
  induction l as [|x l IH]; [done|].
  cbn [keep_first id]. rewrite fmap_cons.
  rewrite (sum_counts_split _ _ x (keep_first_id_NoDup l)) in IH.
  assert ((λ k, (k, occurrences k (x :: l))) <$> filter (λ y, y ≠ x) (keep_first id l)
          = (λ k, (k, occurrences k l)) <$> filter (λ y, y ≠ x) (keep_first id l))
    as ->.
  { apply Forall_fmap_ext_1, Forall_forall.
    intros k [Hk _]%list_elem_of_filter. f_equal.
    unfold occurrences. rewrite filter_cons. by rewrite decide_False by done. }
  assert (occurrences x (x :: l) = 1 + occurrences x l) as Hx.
  { unfold occurrences. rewrite filter_cons_True by done. simpl. lia. }
  unfold sum_counts in *. cbn [foldr snd]. rewrite Hx.
  destruct (decide (x ∈ keep_first id l)) as [Hin|Hnin].
  - simpl length. lia.
  - rewrite elem_of_keep_first in Hnin.
    rewrite (occurrences_not_in x l Hnin). simpl length. lia.
Qed.

(** X13: the counts [get_top_patterns] reports are all at least 1 and add
    up to at most the number of records of the store; they add up to exactly
    that number when [n] is not less than the number of distinct normalized
    texts. *)
Theorem get_top_patterns_counts lines n :
  Forall (λ x, 1 ≤ x.2) (get_top_patterns lines n) ∧
  sum_counts (get_top_patterns lines n) ≤ Z.of_nat (length lines) ∧
  (Z.of_nat (length (remove_dups (normalized_texts lines))) ≤ n →
   sum_counts (get_top_patterns lines n) = Z.of_nat (length lines)).
Proof.
  rewrite get_top_patterns_items.
  set (items := (λ k, (k, occurrences k (normalized_texts lines)))
                <$> keep_first id (normalized_texts lines)).
  assert (Forall (λ x, 1 ≤ x.2) items) as Hpos.
  { apply Forall_fmap, Forall_forall. intros k Hk. rewrite elem_of_keep_first in Hk.
    pose proof (occurrences_in k _ Hk). unfold compose. simpl. lia. }
  assert (Forall (λ x, 1 ≤ x.2) (sorted_desc items)) as Hpos'.
  { by rewrite sorted_desc_perm. }
  assert (sum_counts (sorted_desc items) = Z.of_nat (length lines)) as Hsum.
  { rewrite (sum_counts_perm _ _ (sorted_desc_perm items)).
    unfold items. rewrite sum_counts_occurrences.
    unfold normalized_texts. by rewrite length_fmap. }
  split_and!.
  - by apply Forall_take.
  - rewrite <-Hsum. apply sum_counts_take.
    eapply Forall_impl; [exact Hpos'|]. simpl. lia.
  - intros Hn. rewrite take_ge; [done|].
    rewrite (Permutation_length (sorted_desc_perm items)).
    unfold items. rewrite length_fmap.
    assert (length (keep_first id (normalized_texts lines))
            = length (remove_dups (normalized_texts lines))) as ->; [|lia].
    apply Permutation_length, NoDup_Permutation.
    + apply keep_first_id_NoDup.
    + apply NoDup_remove_dups.
    + intros k. by rewrite elem_of_keep_first, elem_of_remove_dups.
Qed.
End count_totals.

Lemma get_top_patterns_counts_witness :
  sum_counts (LogHunter.get_top_patterns pattern_store 3) = 5.
Proof.
  apply (get_top_patterns_counts pattern_store 3). by vm_compute.
Defined.
